(** * cn-infra process supervisor: a shallow embedding of process_impl.go

    The development follows the Go file function by function:
    [startProcess], [stopProcess], [forceStopProcess], [isAlive], [delete]
    and the watcher loop [watch].  Go values are modelled as the code has
    them: pointers that may be nil are [option], [error] is an optional
    message, the int32 restart counter is a [Z] with its wrap-around
    written out, channels carry their open/closed state, and a run-time
    panic is an explicit outcome of a computation. *)

From Stdlib Require Import ZArith List String Bool Lia.
Import ListNotations.

Local Open Scope Z_scope.
Local Open Scope string_scope.

(** ** Package logging (the log levels used by the supervisor's logger) *)

Module Logging.

Inductive LogLevel : Set :=
| DebugLevel
| InfoLevel
| WarnLevel
| ErrorLevel
| FatalLevel
| PanicLevel.




End Logging.

(** ** Go prelude *)

(** [error]: [None] is the nil error, [Some msg] an error whose [Error()]
    text is [msg]. *)
Definition error : Type := option string.

(** [strings.Contains(s, substr)]. *)
Fixpoint Contains (s substr : string) : bool :=
  String.prefix substr s
  || match s with
     | EmptyString => false
     | String _ rest => Contains rest substr
     end.

(** int32 arithmetic: results are reduced into [-2^31, 2^31). *)
Definition int32_max : Z := 2 ^ 31 - 1.
Definition wrap32 (z : Z) : Z := (z + 2 ^ 31) mod 2 ^ 32 - 2 ^ 31.

(** A channel as seen through the handle: only closing matters here. *)
Inductive chan_state : Set := ChOpen | ChClosed.

(** The run-time panics the modelled code can raise. *)
Inductive GoPanic : Set :=
| NilDereference        (* invalid memory address or nil pointer dereference *)
| CloseOfClosedChannel  (* close of closed channel *)
| SendOnClosedChannel.  (* send on closed channel *)

(** [syscall.Signal] values. *)
Definition SIGKILL : Z := 9.
Definition SIGTERM : Z := 15.

(** [time.Time]; [None] is the zero value [time.Time{}]. *)
Definition Time : Type := option Z.
Definition zeroTime : Time := None.

(** ** Data model *)

(** [os.Process] *)
Record OsProcess : Set := mkOsProcess { Pid : Z }.

(** [status.ProcessStatus] is a string type; the watcher compares it with
    the empty string. *)
Definition ProcessStatus : Type := string.

(** The status reading returned by [UpdateStatus]; only [State] is read. *)
Record File : Type := mkFile { State : ProcessStatus }.

(** The constants of package [status] that the watcher names.  Their
    declarations are not part of the sources at hand, so they are kept
    abstract. *)
Class StatusPkg : Type := {
  Terminated : ProcessStatus;
  Unavailable : ProcessStatus;
  Zombie : ProcessStatus
}.

(** The two error texts [isAlive] looks for, declared elsewhere in
    package [process]. *)
Class ProbeTexts : Type := {
  noSuchProcess : string;
  alreadyFinished : string
}.

(** [const infiniteRestarts = -1] *)
Definition infiniteRestarts : Z := -1.

(** The option block of a handle ([p.options], a pointer). *)
Record POptions : Type := mkPOptions {
  args : list string;
  detach : bool;
  restart : Z;                       (* int32 *)
  notifyChan : option chan_state     (* nil when no sink is configured *)
}.

(** The handle [*Process], with the fields process_impl.go touches. *)
Record Process : Type := mkProcess {
  name : string;
  cmd : string;
  options : option POptions;
  process : option OsProcess;        (* *os.Process *)
  startTime : Time;
  cancelChan : option chan_state
}.

Definition set_process (v : option OsProcess) (p : Process) : Process :=
  mkProcess (name p) (cmd p) (options p) v (startTime p) (cancelChan p).

Definition set_startTime (v : Time) (p : Process) : Process :=
  mkProcess (name p) (cmd p) (options p) (process p) v (cancelChan p).

Definition set_cancelChan (v : option chan_state) (p : Process) : Process :=
  mkProcess (name p) (cmd p) (options p) (process p) (startTime p) v.

(** [syscall.SysProcAttr] and [os.ProcAttr] as [startProcess] fills them. *)
Record SysProcAttr : Set := mkSysProcAttr { Setpgid : bool; Pgid : Z }.

Inductive OsFile : Set := Stdin.

Record ProcAttr : Type := mkProcAttr {
  Dir : string;
  Env : list string;
  Files : list (option OsFile);
  Sys : option SysProcAttr
}.

(** ** The collaborators

    Everything outside process_impl.go answers through this record: the
    operating system, and the methods of [*Process] that are declared in
    other files.  One record holds the answers available during one call
    (or one watcher tick).  [p_UpdateStatus] hands back a reading together
    with its error: the watcher reads [pStatus.State] whether or not the
    error is nil, so the reading is a value, never nil.  [sink_ready]
    says whether a send on the notification sink goes through during this
    wake-up (a receiver or a free buffer slot takes the value); when it
    does not, the sender stays blocked. *)
Record World : Type := mkWorld {
  os_Getwd : string * error;
  os_Environ : list string;
  os_StartProcess : string -> list string -> ProcAttr -> OsProcess + string;
  os_Now : Z;
  os_FindProcess : Z -> OsProcess + string;
  os_Signal : OsProcess -> Z -> error;
  os_Release : OsProcess -> error;
  (* methods of *Process declared outside process_impl.go *)
  p_Wait : error;
  p_GetPid : Z;
  p_UpdateStatus : Z -> File * error;
  (* the receiving end of the notification sink *)
  sink_ready : bool
}.

(** ** Effects *)

Inductive Arg : Type :=
| AStr (s : string)
| AInt (z : Z)
| AErr (e : error).

Inductive Event : Type :=
| EvSignal (pr : OsProcess) (sig : Z)
| EvRelease (pr : OsProcess)
| EvWait
| EvReadStatus (pid : Z)
| EvStartProcess (name : string) (argv : list string) (attr : ProcAttr)
| EvCloseCancel
| EvCloseNotify
| EvTickerStop
| EvNotify (s : ProcessStatus)
| EvGoRestart
| EvLog (lvl : Logging.LogLevel) (fmt : string) (a : list Arg).

(** The handle together with what the code has done so far. *)
Record St : Type := mkSt { hdl : Process; trace : list Event }.

Definition start_at (p : Process) : St := mkSt p [].

(** A call either returns a value or panics; both leave a state behind. *)
Inductive res (A : Type) : Type :=
| Ret (a : A) (s : St)
| Panic (g : GoPanic) (s : St).
Arguments Ret {A} a s.
Arguments Panic {A} g s.

Definition M (A : Type) : Type := St -> res A.

Definition ret {A : Type} (a : A) : M A := fun s => Ret a s.

Definition bind {A B : Type} (m : M A) (k : A -> M B) : M B :=
  fun s =>
    match m s with
    | Ret a s' => k a s'
    | Panic g s' => Panic g s'
    end.

Declare Scope go_scope.
Delimit Scope go_scope with go.
Notation "x <- m ;; k" := (bind m (fun x => k))
  (at level 61, m at next level, right associativity) : go_scope.
Notation "m ;;; k" := (bind m (fun _ => k))
  (at level 61, right associativity) : go_scope.
Local Open Scope go_scope.

Definition getp : M Process := fun s => Ret (hdl s) s.

Definition setp (f : Process -> Process) : M unit :=
  fun s => Ret tt (mkSt (f (hdl s)) (trace s)).

Definition emit (e : Event) : M unit :=
  fun s => Ret tt (mkSt (hdl s) (trace s ++ [e])%list).

Definition panic {A : Type} (g : GoPanic) : M A := fun s => Panic g s.

(** Following a pointer: nil panics. *)
Definition deref {A : Type} (ptr : option A) : M A :=
  match ptr with
  | Some a => ret a
  | None => panic NilDereference
  end.

Definition is_nil {A : Type} (ptr : option A) : bool :=
  match ptr with
  | Some _ => false
  | None => true
  end.

(** [close(p.cancelChan)] on a non-nil channel. *)
Definition close_cancelChan (c : chan_state) : M unit :=
  match c with
  | ChOpen => setp (set_cancelChan (Some ChClosed)) ;;; emit EvCloseCancel
  | ChClosed => panic CloseOfClosedChannel
  end.

Definition log (lvl : Logging.LogLevel) (fmt : string) (a : list Arg) : M unit :=
  emit (EvLog lvl fmt a).

(** ** Launcher *)

(** [func (p *Process) startProcess()], returning the new [*os.Process]
    and an error. *)
Definition startProcess (w : World) : M (option OsProcess * error) :=
  let '(wd, err) := os_Getwd w in
  match err with
  | Some e => ret (None, Some ("failed to get rooted path name for: " ++ e))
  | None =>
      p <- getp ;;
      let sys :=
        match options p with
        | Some o => if detach o then Some (mkSysProcAttr true 0) else None
        | None => None
        end in
      let attr := mkProcAttr wd (os_Environ w) [Some Stdin; None; None] sys in
      o <- deref (options p) ;;
      let pArgs := (cmd p :: args o)%list in
      emit (EvStartProcess (cmd p) pArgs attr) ;;;
      match os_StartProcess w (cmd p) pArgs attr with
      | inr e =>
          ret (None, Some ("failed to start new process (cmd: " ++ cmd p ++ "): " ++ e))
      | inl pr =>
          setp (set_startTime (Some (os_Now w))) ;;;
          emit (EvReadStatus (Pid pr)) ;;;
          ret (Some pr, None)
      end
  end.

(** ** Terminator *)

(** [func (p *Process) stopProcess() (err error)] *)
Definition stopProcess (w : World) : M error :=
  p <- getp ;;
  if is_nil (process p)
  then ret (Some "asked to stop non-existing process instance")
  else
    pr <- deref (process p) ;;
    emit (EvSignal pr SIGTERM) ;;;
    match os_Signal w pr SIGTERM with
    | Some e => ret (Some ("process termination unsuccessful: " ++ e))
    | None => setp (set_startTime zeroTime) ;;; ret None
    end.

(** [func (p *Process) forceStopProcess() (err error)].  The guard is the
    source's [p.process != nil]. *)
Definition forceStopProcess (w : World) : M error :=
  p <- getp ;;
  if negb (is_nil (process p))
  then ret (Some "asked to force-stop non-existing process instance")
  else
    pr <- deref (process p) ;;
    emit (EvSignal pr SIGKILL) ;;;
    match os_Signal w pr SIGKILL with
    | Some e => ret (Some ("process forced termination unsuccessful: " ++ e))
    | None =>
        emit (EvRelease pr) ;;;
        match os_Release w pr with
        | Some e => ret (Some ("resource release failed: " ++ e))
        | None => setp (set_startTime zeroTime) ;;; ret None
        end
    end.

(** [p.Wait()], declared outside process_impl.go: the call is recorded and
    its error is the collaborator's answer. *)
Definition Wait (w : World) : M error :=
  emit EvWait ;;; ret (p_Wait w).

(** [func (p *Process) delete() error] *)
Definition delete (w : World) : M error :=
  p <- getp ;;
  err <- stopProcess w ;;
  early <-
    match err with
    | Some e =>
        log Logging.WarnLevel "cannot stop process %s, trying force stop (err: %v)"
            [AStr (name p); AErr err] ;;;
        err' <- forceStopProcess w ;;
        match err' with
        | Some e' =>
            ret (Some ("failed to force-stop process " ++ name p ++ ": " ++ e'))
        | None => ret None
        end
    | None =>
        werr <- Wait w ;;
        match werr with
        | Some e' =>
            ret (Some ("error while waiting on process " ++ name p
                       ++ " to complete: " ++ e'))
        | None => ret None
        end
    end ;;
  match early with
  | Some e => ret (Some e)
  | None =>
      p' <- getp ;;
      match cancelChan p' with
      | Some c => close_cancelChan c
      | None => ret tt
      end ;;;
      log Logging.DebugLevel "Process %s deleted" [AStr (name p)] ;;;
      ret None
  end.

(** ** Liveness prober *)

(** [func (p *Process) isAlive() bool] *)
Definition isAlive `{ProbeTexts} (w : World) (p : Process) : bool :=
  match process p with
  | None => false
  | Some pr =>
      match os_FindProcess w (Pid pr) with
      | inr _ => false
      | inl osProcess =>
          match os_Signal w osProcess 0 with
          | Some e =>
              if Contains e noSuchProcess || Contains e alreadyFinished
              then false
              else true
          | None => true
          end
      end
  end.

(** ** Watchdog *)

(** Modelled from the spec: [GetNotification] is declared outside
    process_impl.go.  The spec speaks of the notification sink being
    "configured": the sink is the [notifyChan] of the option block, and
    there is none when the handle has no option block. *)
Definition GetNotification (p : Process) : option chan_state :=
  match options p with
  | Some o => notifyChan o
  | None => None
  end.

(** The body of the goroutine spawned on a restart:
    [p.process, err = p.startProcess()] followed by the error log. *)
Definition restartTask (w : World) : M unit :=
  r <- startProcess w ;;
  setp (set_process (fst r)) ;;;
  match snd r with
  | Some e =>
      p <- getp ;;
      log Logging.ErrorLevel "attempt to restart process %s failed: %v"
          [AStr (name p); AErr (snd r)]
  | None => ret tt
  end.

(** The variables local to [watch]. *)
Record LoopState : Type := mkLoop {
  last : ProcessStatus;
  numRestarts : Z                    (* int32 *)
}.

(** The first half of a tick: the value given to [current], with the
    warning logged on the way. *)
Definition observe `{StatusPkg} `{ProbeTexts} (w : World) (p : Process)
  : ProcessStatus * list Event :=
  if negb (isAlive w p)
  then (Terminated, [])
  else
    let '(pStatus, err) := p_UpdateStatus w (p_GetPid w) in
    let warned :=
      match err with
      | Some e => [EvLog Logging.WarnLevel "" [AErr err]]
      | None => []
      end in
    if String.eqb (State pStatus) ""
    then (Unavailable, warned)
    else (State pStatus, warned).

(** The restart policy applied when the state changed to [Terminated]. *)
Definition restartPolicy (p : Process) (n : Z) : Z * list Event :=
  if (n >? 0)%Z || (n =? infiniteRestarts)%Z
  then (wrap32 (n - 1), [EvGoRestart])
  else (n, [EvLog Logging.DebugLevel "no more attempts to restart process %s"
                  [AStr (name p)]]).

(** Reaping on a change to [Zombie]. *)
Definition reapZombie (w : World) : list Event :=
  (EvLog Logging.DebugLevel "Terminating zombie process %d" [AInt (p_GetPid w)]
   :: EvWait
   :: match p_Wait w with
      | Some e =>
          [EvLog Logging.WarnLevel "failed to terminate dead process: %s"
                 [AInt (p_GetPid w); AErr (p_Wait w)]]
      | None => []
      end)%list.

(** How a goroutine comes to a halt without returning. *)
Inductive Stop : Set :=
| Panicked (g : GoPanic)
| BlockedOnSend.

(** [if p.GetNotification() != nil { p.options.notifyChan <- current }]:
    nothing to do without a sink; a send on a closed sink panics; a send
    on an open sink goes through when the receiving end takes the value
    and blocks otherwise.  A value that went through is recorded as
    [EvNotify]. *)
Definition notify (w : World) (p : Process) (current : ProcessStatus)
  : list Event + Stop :=
  match GetNotification p with
  | None => inl []
  | Some ChClosed => inr (Panicked SendOnClosedChannel)
  | Some ChOpen =>
      if sink_ready w then inl [EvNotify current] else inr BlockedOnSend
  end.

(** What one pass through [case <-ticker.C] leaves: the locals, the
    events, and whether the goroutine came to a halt in it. *)
Record Pass : Type := mkPass {
  next : LoopState;
  out : list Event;
  stop : option Stop
}.

(** One pass through [case <-ticker.C].  The handle [p] is the handle as
    the loop finds it on this tick: restart goroutines and callers of the
    handle write to it between ticks.  When the send halts the goroutine
    nothing after it runs and the locals stay as they were. *)
Definition tick `{StatusPkg} `{ProbeTexts} (w : World) (p : Process)
  (st : LoopState) : Pass :=
  let '(current, evObserve) := observe w p in
  if negb (String.eqb current (last st))
  then
    match notify w p current with
    | inr why => mkPass st evObserve (Some why)
    | inl evNotify =>
        let '(n, evRestart) :=
          if String.eqb current Terminated
          then restartPolicy p (numRestarts st)
          else (numRestarts st, []) in
        let evReap :=
          if String.eqb current Zombie then reapZombie w else [] in
        mkPass (mkLoop current n)
               (evObserve ++ evNotify ++ evRestart ++ evReap)%list None
    end
  else mkPass (mkLoop current (numRestarts st)) evObserve None.

(** One pass through [case <-p.cancelChan], taken once the channel is
    closed: the ticker is stopped, then the sink is closed when there is
    one, which panics on a sink that is already closed; otherwise the
    stop is logged and [watch] returns. *)
Definition cancelled (p : Process) : list Event * option GoPanic :=
  match GetNotification p with
  | Some ChClosed => ([EvTickerStop], Some CloseOfClosedChannel)
  | Some ChOpen =>
      ([EvTickerStop; EvCloseNotify;
        EvLog Logging.DebugLevel "Process %s watcher stopped" [AStr (name p)]],
       None)
  | None =>
      ([EvTickerStop;
        EvLog Logging.DebugLevel "Process %s watcher stopped" [AStr (name p)]],
       None)
  end.

(** What wakes the [select]: the ticker, or the cancel channel.  Each
    wake-up carries the handle as it is at that moment. *)
Inductive Wakeup : Type :=
| TickerC (w : World) (p : Process)
| CancelC (p : Process).

(** The result of running the loop over some wake-ups: the events so far,
    the locals, whether [watch] has returned, and whether its goroutine
    has come to a halt otherwise. *)
Record Run : Type := mkRun {
  events : list Event;
  locals : LoopState;
  returned : bool;
  stopped : option Stop
}.

(** The [for { select { ... } }] of [watch].  Receiving from
    [p.cancelChan] only succeeds on a closed channel (nothing is ever sent
    on it), so a [CancelC] on a nil or open channel is not a wake-up and
    the loop keeps waiting.  After a return, a panic or a send that stays
    blocked no further wake-up is served. *)
Fixpoint watch_loop `{StatusPkg} `{ProbeTexts} (ws : list Wakeup)
  (st : LoopState) : Run :=
  match ws with
  | [] => mkRun [] st false None
  | TickerC w p :: rest =>
      let t := tick w p st in
      match stop t with
      | Some why => mkRun (out t) st false (Some why)
      | None =>
          let r := watch_loop rest (next t) in
          mkRun (out t ++ events r)%list (locals r) (returned r) (stopped r)
      end
  | CancelC p :: rest =>
      match cancelChan p with
      | Some ChClosed =>
          match snd (cancelled p) with
          | Some g => mkRun (fst (cancelled p)) st false (Some (Panicked g))
          | None => mkRun (fst (cancelled p)) st true None
          end
      | _ => watch_loop rest st
      end
  end.

(** The value [watch] gives to [numRestarts] before the loop: the zero
    value, overwritten by [p.options.restart] when there are options. *)
Definition initialRestarts (p : Process) : Z :=
  match options p with
  | Some o => restart o
  | None => 0
  end.

(** [func (p *Process) watch()], started on the handle [p]. *)
Definition watch `{StatusPkg} `{ProbeTexts} (p : Process) (ws : list Wakeup)
  : Run :=
  let r := watch_loop ws (mkLoop "" (initialRestarts p)) in
  mkRun (EvLog Logging.DebugLevel "Process %s watcher started" [AStr (name p)]
         :: events r)
        (locals r) (returned r) (stopped r).

(** The loop is still serving wake-ups. *)
Definition running (r : Run) : Prop :=
  returned r = false /\ stopped r = None.

(** The send of a tick can go through: there is no sink, or the sink is
    open and its receiving end takes the value. *)
Definition delivers (w : World) (p : Process) : Prop :=
  match GetNotification p with
  | None => True
  | Some ChOpen => sink_ready w = true
  | Some ChClosed => False
  end.

(** A wake-up that neither panics nor blocks on the sink. *)
Definition healthy (wk : Wakeup) : Prop :=
  match wk with
  | TickerC w p => delivers w p
  | CancelC p => GetNotification p <> Some ChClosed
  end.

(** Counting the effects of a run. *)
Definition is_restart (e : Event) : bool :=
  match e with
  | EvGoRestart => true
  | _ => false
  end.

Definition is_close_cancel (e : Event) : bool :=
  match e with
  | EvCloseCancel => true
  | _ => false
  end.

Definition restarts (evs : list Event) : nat :=
  List.length (List.filter is_restart evs).

Definition notifications (evs : list Event) : list ProcessStatus :=
  List.flat_map (fun e => match e with EvNotify s => [s] | _ => [] end) evs.

Definition closes (evs : list Event) : nat :=
  List.length (List.filter is_close_cancel evs).

(** The state a call leaves behind, whether it returned or panicked. *)
Definition final {A : Type} (r : res A) : St :=
  match r with
  | Ret _ s => s
  | Panic _ s => s
  end.

(** The value a call returned, if it returned. *)
Definition result {A : Type} (r : res A) : option A :=
  match r with
  | Ret a _ => Some a
  | Panic _ _ => None
  end.

(** The warning [delete] logs between the failed graceful stop and the
    forced stop. *)
Definition stopWarning (p : Process) (err : error) : Event :=
  EvLog Logging.WarnLevel "cannot stop process %s, trying force stop (err: %v)"
        [AStr (name p); AErr err].

(** A caller deleting the same handle again and again, whatever each call
    returns; a panic ends the sequence. *)
Fixpoint delete_all (ws : list World) : M unit :=
  match ws with
  | [] => ret tt
  | w :: rest => delete w ;;; delete_all rest
  end.

(** The bookkeeping that ties the state of the cancel channel to the
    number of closes performed on it. *)
Definition close_inv (s : St) : Prop :=
  match cancelChan (hdl s) with
  | Some ChClosed => (closes (trace s) <= 1)%nat
  | _ => closes (trace s) = 0%nat
  end.

(** Two handles that differ at most in the configured restart budget. *)
Definition options_same_but_restart (a b : option POptions) : Prop :=
  match a, b with
  | None, None => True
  | Some x, Some y =>
      args x = args y /\ detach x = detach y /\ notifyChan x = notifyChan y
  | _, _ => False
  end.

Definition same_but_restart (p q : Process) : Prop :=
  name p = name q /\ cmd p = cmd q /\ process p = process q
  /\ startTime p = startTime q /\ cancelChan p = cancelChan q
  /\ options_same_but_restart (options p) (options q).

Inductive wakeup_sim : Wakeup -> Wakeup -> Prop :=
| sim_tick w p q : same_but_restart p q -> wakeup_sim (TickerC w p) (TickerC w q)
| sim_cancel p q : same_but_restart p q -> wakeup_sim (CancelC p) (CancelC q).

(** ** Sample inputs for concrete runs *)

Definition unix_texts : ProbeTexts :=
  {| noSuchProcess := "no such process";
     alreadyFinished := "os: process already finished" |}.

Definition status_names : StatusPkg :=
  {| Terminated := "terminated";
     Unavailable := "unavailable";
     Zombie := "zombie" |}.

(** A world in which the probe and the signals answer [sig_err], and the
    status source reads [st]. *)
Definition world_with (sig_err wait_err : error) (st : ProcessStatus) : World :=
  {| os_Getwd := ("/", None);
     os_Environ := [];
     os_StartProcess := fun _ _ _ => inl (mkOsProcess 43);
     os_Now := 1000;
     os_FindProcess := fun pid => inl (mkOsProcess pid);
     os_Signal := fun _ _ => sig_err;
     os_Release := fun _ => None;
     p_Wait := wait_err;
     p_GetPid := 42;
     p_UpdateStatus := fun _ => (mkFile st, None);
     sink_ready := true |}.

Definition quiet_world : World := world_with None None "running".
Definition gone_world : World :=
  world_with (Some "os: process already finished") None "running".
Definition eperm_world : World :=
  world_with (Some "operation not permitted") None "running".
Definition stuck_world : World :=
  world_with None (Some "wait: no child processes") "running".

Definition sample_options (budget : Z) : POptions :=
  {| args := ["--serve"]; detach := true; restart := budget;
     notifyChan := Some ChOpen |}.

Definition sample_handle (budget : Z) : Process :=
  {| name := "agent"; cmd := "/bin/agent";
     options := Some (sample_options budget);
     process := Some (mkOsProcess 42);
     startTime := Some 100;
     cancelChan := Some ChOpen |}.


(** ** Further readings of a trace *)

(** The signals sent, in order. *)
Definition signals (evs : list Event) : list (OsProcess * Z) :=
  List.flat_map (fun e => match e with EvSignal pr sig => [(pr, sig)] | _ => [] end)
                evs.

(** The calls of [os.StartProcess], in order. *)
Definition starts (evs : list Event) : list (string * list string * ProcAttr) :=
  List.flat_map
    (fun e => match e with
              | EvStartProcess n argv attr => [(n, argv, attr)]
              | _ => []
              end) evs.

Definition is_release (e : Event) : bool :=
  match e with
  | EvRelease _ => true
  | _ => false
  end.

Definition is_wait (e : Event) : bool :=
  match e with
  | EvWait => true
  | _ => false
  end.

Definition is_close_notify (e : Event) : bool :=
  match e with
  | EvCloseNotify => true
  | _ => false
  end.

Definition releases (evs : list Event) : nat :=
  List.length (List.filter is_release evs).

Definition waits (evs : list Event) : nat :=
  List.length (List.filter is_wait evs).

Definition notify_closes (evs : list Event) : nat :=
  List.length (List.filter is_close_notify evs).

(** A sequence of states in which no state repeats its predecessor,
    [x] being the predecessor of the first. *)
Fixpoint chain (x : ProcessStatus) (l : list ProcessStatus) : Prop :=
  match l with
  | [] => True
  | y :: rest => x <> y /\ chain y rest
  end.

(** A wake-up whose handle has a notification sink. *)
Definition has_sink (wk : Wakeup) : Prop :=
  match wk with
  | TickerC _ p => GetNotification p <> None
  | CancelC _ => True
  end.

(** The same world with another answer of [p.Wait()]. *)
Definition with_Wait (e : error) (w : World) : World :=
  mkWorld (os_Getwd w) (os_Environ w) (os_StartProcess w) (os_Now w)
          (os_FindProcess w) (os_Signal w) (os_Release w)
          e (p_GetPid w) (p_UpdateStatus w) (sink_ready w).

(** The attributes [startProcess] hands to [os.StartProcess]. *)
Definition launchAttr (w : World) (wd : string) (o : POptions) : ProcAttr :=
  mkProcAttr wd (os_Environ w) [Some Stdin; None; None]
             (if detach o then Some (mkSysProcAttr true 0) else None).

(** More sample inputs. *)
Definition closed_sink_handle (budget : Z) : Process :=
  {| name := "agent"; cmd := "/bin/agent";
     options := Some {| args := ["--serve"]; detach := true; restart := budget;
                        notifyChan := Some ChClosed |};
     process := Some (mkOsProcess 42);
     startTime := Some 100;
     cancelChan := Some ChOpen |}.

Definition bare_handle : Process :=
  {| name := "bare"; cmd := "/bin/bare"; options := None; process := None;
     startTime := None; cancelChan := Some ChOpen |}.

Definition nowhere_world : World :=
  mkWorld ("", Some "getwd: no such file or directory") []
          (fun _ _ _ => inl (mkOsProcess 43)) 1000
          (fun pid => inl (mkOsProcess pid)) (fun _ _ => None) (fun _ => None)
          None 42 (fun _ => (mkFile "running", None)) true.

Definition nofork_world : World :=
  mkWorld ("/", None) []
          (fun _ _ _ => inr "fork/exec /bin/agent: no such file or directory") 1000
          (fun pid => inl (mkOsProcess pid)) (fun _ _ => None) (fun _ => None)
          None 42 (fun _ => (mkFile "running", None)) true.

(** ** Proof support *)

(** Unfolding one monadic call down to its case analysis. *)
Ltac run_go :=
  unfold delete, stopProcess, forceStopProcess, restartTask, startProcess,
    Wait, log, close_cancelChan, deref, bind, getp, setp, emit, panic, ret;
  cbn [hdl trace process name cmd options startTime cancelChan is_nil negb
       set_process set_startTime set_cancelChan fst snd final].

Lemma closes_app (a b : list Event) :
  closes (a ++ b) = (closes a + closes b)%nat.
Proof.
  unfold closes. rewrite List.filter_app, List.length_app. reflexivity.
Qed.

Lemma restarts_app (a b : list Event) :
  restarts (a ++ b) = (restarts a + restarts b)%nat.
Proof.
  unfold restarts. rewrite List.filter_app, List.length_app. reflexivity.
Qed.

Lemma notifications_app (a b : list Event) :
  notifications (a ++ b) = (notifications a ++ notifications b)%list.
Proof. unfold notifications. apply List.flat_map_app. Qed.

(** ** Terminator *)

(** C1 (as the code behaves).  [forceStopProcess] refuses exactly when a
    live process reference is present: it returns the "non-existing
    process" error without sending any signal and without touching the
    handle.  When the reference is nil it goes on to [p.process.Signal]
    and panics on the nil pointer, before any signal, release or write to
    [startTime]. *)
Theorem forceStopProcess_guard_inverted :
  forall (w : World) (p : Process) (pr : OsProcess) (tr : list Event),
    forceStopProcess w (mkSt (set_process (Some pr) p) tr)
    = Ret (Some "asked to force-stop non-existing process instance")
          (mkSt (set_process (Some pr) p) tr)
    /\ forceStopProcess w (mkSt (set_process None p) tr)
       = Panic NilDereference (mkSt (set_process None p) tr).
Proof.
  intros w p pr tr. split; reflexivity.
Qed.

(** The sibling [stopProcess] has the guard the right way round. *)
Lemma stopProcess_refuses_nil (w : World) (p : Process) (tr : list Event) :
  stopProcess w (mkSt (set_process None p) tr)
  = Ret (Some "asked to stop non-existing process instance")
        (mkSt (set_process None p) tr).
Proof. reflexivity. Qed.

(** What [delete] does on a handle with a live reference, by the answers
    of the graceful signal and of the wait. *)
Lemma delete_live_signal_fails w p pr tr e :
  process p = Some pr ->
  os_Signal w pr SIGTERM = Some e ->
  delete w (mkSt p tr)
  = Ret (Some ("failed to force-stop process " ++ name p
               ++ ": asked to force-stop non-existing process instance"))
        (mkSt p ((tr ++ [EvSignal pr SIGTERM])
                 ++ [EvLog Logging.WarnLevel
                       "cannot stop process %s, trying force stop (err: %v)"
                       [AStr (name p);
                        AErr (Some ("process termination unsuccessful: " ++ e)%string)]])%list).
Proof.
  intros Hp Hs. run_go. rewrite Hp. cbn. rewrite Hs. cbn. rewrite Hp. reflexivity.
Qed.

Lemma delete_live_wait_fails w p pr tr e :
  process p = Some pr ->
  os_Signal w pr SIGTERM = None ->
  p_Wait w = Some e ->
  delete w (mkSt p tr)
  = Ret (Some ("error while waiting on process " ++ name p
               ++ " to complete: " ++ e))
        (mkSt (set_startTime zeroTime p)
              ((tr ++ [EvSignal pr SIGTERM]) ++ [EvWait])%list).
Proof.
  intros Hp Hs Hw. run_go. rewrite Hp. cbn. rewrite Hs. cbn. rewrite Hw. reflexivity.
Qed.

Lemma delete_live_stopped w p pr tr :
  process p = Some pr ->
  os_Signal w pr SIGTERM = None ->
  p_Wait w = None ->
  delete w (mkSt p tr)
  = match cancelChan p with
    | Some ChOpen =>
        Ret None
            (mkSt (set_cancelChan (Some ChClosed) (set_startTime zeroTime p))
                  ((((tr ++ [EvSignal pr SIGTERM]) ++ [EvWait])
                    ++ [EvCloseCancel])
                   ++ [EvLog Logging.DebugLevel "Process %s deleted"
                         [AStr (name p)]])%list)
    | Some ChClosed =>
        Panic CloseOfClosedChannel
              (mkSt (set_startTime zeroTime p)
                    ((tr ++ [EvSignal pr SIGTERM]) ++ [EvWait])%list)
    | None =>
        Ret None
            (mkSt (set_startTime zeroTime p)
                  (((tr ++ [EvSignal pr SIGTERM]) ++ [EvWait])
                   ++ [EvLog Logging.DebugLevel "Process %s deleted"
                         [AStr (name p)]])%list)
    end.
Proof.
  intros Hp Hs Hw. run_go. rewrite Hp. cbn. rewrite Hs. cbn. rewrite Hw. cbn.
  destruct (cancelChan p) as [[|]|]; reflexivity.
Qed.

Lemma delete_nil_process w p tr :
  process p = None ->
  delete w (mkSt p tr)
  = Panic NilDereference
          (mkSt p (tr ++ [stopWarning p
                            (Some "asked to stop non-existing process instance")])%list).
Proof.
  intros Hp. run_go. rewrite Hp. cbn. rewrite Hp. reflexivity.
Qed.

Lemma forceStopProcess_trace w s r s' :
  forceStopProcess w s = Ret r s' ->
  exists more, trace s' = (trace s ++ more)%list.
Proof.
  destruct s as [p tr]. run_go.
  destruct (process p) as [pr|]; cbn; [| discriminate].
  intros E. inversion E; subst. exists []. cbn. now rewrite List.app_nil_r.
Qed.

(** C6, counterexample.  The graceful signal fails on a live handle, the
    forced stop fails too, and the error [delete] returns holds the text of
    the forced-stop failure but neither the graceful-stop error nor its
    cause. *)
Lemma delete_error_omits_graceful_failure :
  result (stopProcess gone_world (start_at (sample_handle 2)))
  = Some (Some "process termination unsuccessful: os: process already finished")
  /\ result (forceStopProcess gone_world
               (final (stopProcess gone_world (start_at (sample_handle 2)))))
     = Some (Some "asked to force-stop non-existing process instance")
  /\ result (delete gone_world (start_at (sample_handle 2)))
     = Some (Some "failed to force-stop process agent: asked to force-stop non-existing process instance")
  /\ Contains
       "failed to force-stop process agent: asked to force-stop non-existing process instance"
       "process termination unsuccessful: os: process already finished" = false
  /\ Contains
       "failed to force-stop process agent: asked to force-stop non-existing process instance"
       "os: process already finished" = false.
Proof. repeat split; vm_compute; reflexivity. Qed.

(** C6, amended.  Whenever the graceful stop fails with [e1] and the
    forced stop that follows fails with [e2], [delete] returns one error
    whose text is "failed to force-stop process <name>: " followed by
    [e2]; the graceful failure [e1] only appears in the warning that was
    logged before the forced stop. *)
Theorem delete_reports_forced_failure_only :
  forall (w : World) (s s1 s2 : St) (e1 e2 : string),
    stopProcess w s = Ret (Some e1) s1 ->
    forceStopProcess w
      (mkSt (hdl s1) (trace s1 ++ [stopWarning (hdl s) (Some e1)])%list)
    = Ret (Some e2) s2 ->
    delete w s
    = Ret (Some ("failed to force-stop process " ++ name (hdl s) ++ ": " ++ e2)) s2
    /\ In (stopWarning (hdl s) (Some e1)) (trace s2).
Proof.
  intros w s s1 s2 e1 e2 Hstop Hforce. split.
  - unfold delete, bind at 1 2. unfold getp at 1. rewrite Hstop.
    unfold bind at 1 2. unfold log, emit. fold (stopWarning (hdl s) (Some e1)).
    unfold bind. rewrite Hforce. reflexivity.
  - destruct (forceStopProcess_trace _ _ _ _ Hforce) as [more Hmore].
    rewrite Hmore. cbn [trace]. rewrite <- List.app_assoc.
    apply List.in_or_app. right. left. reflexivity.
Qed.

(** The amended statement at work: the process has already finished when
    [delete] signals it. *)
Lemma delete_reports_forced_failure_only_witness :
  delete gone_world (start_at (sample_handle 2))
  = Ret (Some "failed to force-stop process agent: asked to force-stop non-existing process instance")
        (mkSt (sample_handle 2)
              [EvSignal (mkOsProcess 42) SIGTERM;
               stopWarning (sample_handle 2)
                 (Some "process termination unsuccessful: os: process already finished")])
  /\ In (stopWarning (sample_handle 2)
           (Some "process termination unsuccessful: os: process already finished"))
        [EvSignal (mkOsProcess 42) SIGTERM;
         stopWarning (sample_handle 2)
           (Some "process termination unsuccessful: os: process already finished")].
Proof.
  apply (delete_reports_forced_failure_only gone_world
           (start_at (sample_handle 2))
           (mkSt (sample_handle 2) [EvSignal (mkOsProcess 42) SIGTERM])
           (mkSt (sample_handle 2)
                 [EvSignal (mkOsProcess 42) SIGTERM;
                  stopWarning (sample_handle 2)
                    (Some "process termination unsuccessful: os: process already finished")])
           "process termination unsuccessful: os: process already finished"
           "asked to force-stop non-existing process instance");
    reflexivity.
Defined.

(** [delete] on a live handle with an open cancel channel always returns. *)
Lemma delete_live_returns w p pr tr :
  process p = Some pr ->
  cancelChan p <> Some ChClosed ->
  exists err s', delete w (mkSt p tr) = Ret err s'.
Proof.
  intros Hp Hc.
  destruct (os_Signal w pr SIGTERM) as [e|] eqn:Hs.
  - rewrite (delete_live_signal_fails w p pr tr e Hp Hs). eauto.
  - destruct (p_Wait w) as [e|] eqn:Hw.
    + rewrite (delete_live_wait_fails w p pr tr e Hp Hs Hw). eauto.
    + rewrite (delete_live_stopped w p pr tr Hp Hs Hw).
      destruct (cancelChan p) as [[|]|]; [eauto | congruence | eauto].
Qed.

(** How a returning [delete] leaves the cancel channel and the count of
    closes: closed once more when it returns nil on a non-nil channel,
    untouched when it returns an error. *)
Lemma delete_returns_effect w p tr err s' :
  delete w (mkSt p tr) = Ret err s' ->
  match err with
  | None =>
      match cancelChan p with
      | Some ChOpen =>
          cancelChan (hdl s') = Some ChClosed
          /\ closes (trace s') = S (closes tr)
      | Some ChClosed => False
      | None => cancelChan (hdl s') = None /\ closes (trace s') = closes tr
      end
  | Some _ =>
      cancelChan (hdl s') = cancelChan p /\ closes (trace s') = closes tr
  end.
Proof.
  destruct (process p) as [pr|] eqn:Hp.
  - destruct (os_Signal w pr SIGTERM) as [e|] eqn:Hs.
    + rewrite (delete_live_signal_fails w p pr tr e Hp Hs).
      intros E; injection E as <- <-; cbn [hdl trace].
      rewrite !closes_app. cbn. split; [reflexivity | lia].
    + destruct (p_Wait w) as [e|] eqn:Hw.
      * rewrite (delete_live_wait_fails w p pr tr e Hp Hs Hw).
        intros E; injection E as <- <-; cbn [hdl trace].
        rewrite !closes_app. cbn. split; [reflexivity | lia].
      * rewrite (delete_live_stopped w p pr tr Hp Hs Hw).
        destruct (cancelChan p) as [[|]|] eqn:Hc; intros E; try discriminate E;
          injection E as <- <-; cbn [hdl trace]; rewrite !closes_app; cbn;
          rewrite ?Hc; split; try reflexivity; lia.
  - rewrite (delete_nil_process w p tr Hp). discriminate.
Qed.

(** C4, counterexample.  On a live handle with an open cancel channel,
    [delete] returns the force-stop error (graceful signal failed) or the
    wait error (graceful signal accepted, wait failed), and in both runs
    the cancel channel is still open and was never closed. *)
Lemma delete_error_leaves_cancelChan_open :
  (result (delete gone_world (start_at (sample_handle 2)))
   = Some (Some "failed to force-stop process agent: asked to force-stop non-existing process instance")
   /\ cancelChan (hdl (final (delete gone_world (start_at (sample_handle 2)))))
      = Some ChOpen
   /\ closes (trace (final (delete gone_world (start_at (sample_handle 2)))))
      = 0%nat)
  /\ (result (delete stuck_world (start_at (sample_handle 2)))
      = Some (Some "error while waiting on process agent to complete: wait: no child processes")
      /\ cancelChan (hdl (final (delete stuck_world (start_at (sample_handle 2)))))
         = Some ChOpen
      /\ closes (trace (final (delete stuck_world (start_at (sample_handle 2)))))
         = 0%nat).
Proof. repeat split; vm_compute; reflexivity. Qed.

(** What a cancel wake-up does to the loop, by the state of the cancel
    channel the loop finds. *)
Lemma watch_loop_cancel_closed `{StatusPkg} `{ProbeTexts} q ws st :
  cancelChan q = Some ChClosed ->
  watch_loop (CancelC q :: ws) st = watch_loop [CancelC q] st
  /\ events (watch_loop (CancelC q :: ws) st) = fst (cancelled q)
  /\ locals (watch_loop (CancelC q :: ws) st) = st
  /\ ~ running (watch_loop (CancelC q :: ws) st)
  /\ (GetNotification q <> Some ChClosed ->
      returned (watch_loop (CancelC q :: ws) st) = true
      /\ stopped (watch_loop (CancelC q :: ws) st) = None)
  /\ (GetNotification q = Some ChClosed ->
      returned (watch_loop (CancelC q :: ws) st) = false
      /\ stopped (watch_loop (CancelC q :: ws) st)
         = Some (Panicked CloseOfClosedChannel)).
Proof.
  intros Hc. cbn [watch_loop]. rewrite Hc. unfold cancelled, running.
  destruct (GetNotification q) as [[|]|]; cbn [fst snd events locals returned stopped];
    repeat split; try reflexivity; try congruence;
    intros [E1 E2]; discriminate.
Qed.

Lemma watch_loop_cancel_not_ready `{StatusPkg} `{ProbeTexts} q ws st :
  cancelChan q <> Some ChClosed ->
  watch_loop (CancelC q :: ws) st = watch_loop ws st.
Proof.
  intros Hc. cbn [watch_loop]. destruct (cancelChan q) as [[|]|]; congruence.
Qed.

(** C4, amended.  For a handle whose cancel channel is non-nil and open:
    a [delete] that returns nil has closed the channel exactly once before
    returning, so that the watcher loop takes its cancel case at the next
    cancel wake-up and serves no wake-up after it (it returns, unless the
    notification sink is already closed, where closing it again panics);
    a [delete] that returns an error has left the channel open and closed
    nothing, and the watcher loop goes on serving wake-ups.  On a live
    handle [delete] always returns, and it returns nil when the graceful
    signal and the wait for exit both succeed. *)
Theorem delete_closes_cancelChan_iff_nil_error
  `{StatusPkg} `{ProbeTexts} :
  forall (w : World) (p : Process) (tr : list Event),
    cancelChan p = Some ChOpen ->
    (forall err s',
        delete w (mkSt p tr) = Ret err s' ->
        (err = None ->
         cancelChan (hdl s') = Some ChClosed
         /\ closes (trace s') = S (closes tr)
         /\ forall ws st,
             watch_loop (CancelC (hdl s') :: ws) st
             = watch_loop [CancelC (hdl s')] st
             /\ ~ running (watch_loop (CancelC (hdl s') :: ws) st)
             /\ (GetNotification (hdl s') <> Some ChClosed ->
                 returned (watch_loop (CancelC (hdl s') :: ws) st) = true))
        /\ (err <> None ->
            cancelChan (hdl s') = Some ChOpen
            /\ closes (trace s') = closes tr
            /\ forall ws st,
                watch_loop (CancelC (hdl s') :: ws) st = watch_loop ws st))
    /\ (forall pr, process p = Some pr ->
                   exists err s', delete w (mkSt p tr) = Ret err s')
    /\ (forall pr, process p = Some pr ->
                   os_Signal w pr SIGTERM = None -> p_Wait w = None ->
                   exists s', delete w (mkSt p tr) = Ret None s').
Proof.
  intros w p tr Hopen. split; [| split].
  - intros err s' Hd.
    pose proof (delete_returns_effect w p tr err s' Hd) as E.
    rewrite Hopen in E. split.
    + intros ->. destruct E as [E1 E2]. split; [exact E1 | split; [exact E2 |]].
      intros ws st.
      destruct (watch_loop_cancel_closed (hdl s') ws st E1)
        as (Hsame & _ & _ & Hstop & Hret & _).
      split; [exact Hsame | split; [exact Hstop |]].
      intros Hsink. apply (Hret Hsink).
    + intros Herr. destruct err as [e|]; [| congruence].
      destruct E as [E1 E2]. split; [exact E1 | split; [exact E2 |]].
      intros ws st. apply watch_loop_cancel_not_ready. rewrite E1. discriminate.
  - intros pr Hp. apply (delete_live_returns w p pr tr Hp). congruence.
  - intros pr Hp Hs Hw. rewrite (delete_live_stopped w p pr tr Hp Hs Hw).
    rewrite Hopen. eauto.
Qed.

(** A responsive process: [delete] returns nil, the channel is closed once
    and the watcher returns on its next cancel wake-up, whatever follows. *)
Lemma delete_closes_cancelChan_iff_nil_error_witness :
  cancelChan (hdl (final (delete quiet_world (start_at (sample_handle 2)))))
  = Some ChClosed
  /\ closes (trace (final (delete quiet_world (start_at (sample_handle 2)))))
     = 1%nat
  /\ forall ws st,
      @watch_loop status_names unix_texts
        (CancelC (hdl (final (delete quiet_world (start_at (sample_handle 2)))))
         :: ws) st
      = @watch_loop status_names unix_texts
          [CancelC (hdl (final (delete quiet_world (start_at (sample_handle 2)))))]
          st
      /\ ~ running
            (@watch_loop status_names unix_texts
               (CancelC (hdl (final (delete quiet_world
                                       (start_at (sample_handle 2)))))
                :: ws) st)
      /\ (GetNotification
            (hdl (final (delete quiet_world (start_at (sample_handle 2)))))
          <> Some ChClosed ->
          returned
            (@watch_loop status_names unix_texts
               (CancelC (hdl (final (delete quiet_world
                                       (start_at (sample_handle 2)))))
                :: ws) st) = true).
Proof.
  refine (proj1 (proj1 (@delete_closes_cancelChan_iff_nil_error
                          status_names unix_texts quiet_world (sample_handle 2) []
                          eq_refl)
                   None _ _) eq_refl).
  reflexivity.
Defined.

(** [delete] keeps the cancel channel and the count of closes in step,
    whether it returns or panics. *)
Lemma delete_close_inv w s :
  close_inv s -> close_inv (final (delete w s)).
Proof.
  destruct s as [p tr]. unfold close_inv. cbn [hdl trace].
  destruct (process p) as [pr|] eqn:Hp.
  - destruct (os_Signal w pr SIGTERM) as [e|] eqn:Hs.
    + rewrite (delete_live_signal_fails w p pr tr e Hp Hs). cbn [final hdl trace].
      rewrite !closes_app. cbn. rewrite !Nat.add_0_r. trivial.
    + destruct (p_Wait w) as [e|] eqn:Hw.
      * rewrite (delete_live_wait_fails w p pr tr e Hp Hs Hw). cbn [final hdl trace].
        rewrite !closes_app. cbn. rewrite !Nat.add_0_r. trivial.
      * rewrite (delete_live_stopped w p pr tr Hp Hs Hw).
        destruct (cancelChan p) as [[|]|] eqn:Hc; cbn [final hdl trace];
          rewrite !closes_app; cbn; rewrite ?Hc, ?Nat.add_0_r; intros Hinv;
          try rewrite Hinv; cbn; try lia; trivial.
  - rewrite (delete_nil_process w p tr Hp). cbn [final hdl trace].
    rewrite !closes_app. cbn. rewrite !Nat.add_0_r. trivial.
Qed.

Lemma delete_all_close_inv ws :
  forall s, close_inv s -> close_inv (final (delete_all ws s)).
Proof.
  induction ws as [|w rest IH]; intros s Hinv; cbn [delete_all].
  - exact Hinv.
  - unfold bind. pose proof (delete_close_inv w s Hinv) as Hstep.
    destruct (delete w s) as [err s'|g s']; cbn [final] in *.
    + apply IH. exact Hstep.
    + exact Hstep.
Qed.

(** C5, counterexample.  [delete] is called twice on the same handle.  The
    first call stops the process, returns nil and closes the cancel
    channel.  A restart spawned by the watcher before it saw the
    cancellation brings the process back, and the second call stops it
    again, reaches [close(p.cancelChan)] on the closed channel and
    panics. *)
Lemma delete_twice_panics :
  delete quiet_world (start_at (sample_handle 2))
  = Ret None
        (mkSt (set_cancelChan (Some ChClosed)
                 (set_startTime zeroTime (sample_handle 2)))
              [EvSignal (mkOsProcess 42) SIGTERM; EvWait; EvCloseCancel;
               EvLog Logging.DebugLevel "Process %s deleted" [AStr "agent"]])
  /\ (delete quiet_world ;;; restartTask quiet_world ;;; delete quiet_world)
       (start_at (sample_handle 2))
     = Panic CloseOfClosedChannel
             (mkSt (set_process (Some (mkOsProcess 43))
                      (set_cancelChan (Some ChClosed)
                         (set_startTime zeroTime (sample_handle 2))))
                   [EvSignal (mkOsProcess 42) SIGTERM; EvWait; EvCloseCancel;
                    EvLog Logging.DebugLevel "Process %s deleted" [AStr "agent"];
                    EvStartProcess "/bin/agent" ["/bin/agent"; "--serve"]
                      (mkProcAttr "/" [] [Some Stdin; None; None]
                         (Some (mkSysProcAttr true 0)));
                    EvReadStatus 43;
                    EvSignal (mkOsProcess 43) SIGTERM; EvWait]).
Proof. split; reflexivity. Qed.

(** C5, amended.  Over any sequence of [delete] calls on a handle the
    cancel channel is closed at most once, but closing is not idempotent:
    on a handle whose cancel channel is already closed [delete] never
    returns nil, and when it reaches the close again (the graceful signal
    and the wait both succeed on a live handle) it panics with "close of
    closed channel" without closing anything. *)
Theorem delete_close_not_idempotent :
  forall (w : World) (p : Process) (tr : list Event),
    cancelChan p = Some ChClosed ->
    (forall s', delete w (mkSt p tr) <> Ret None s')
    /\ (forall pr,
           process p = Some pr ->
           os_Signal w pr SIGTERM = None -> p_Wait w = None ->
           exists s',
             delete w (mkSt p tr) = Panic CloseOfClosedChannel s'
             /\ closes (trace s') = closes tr)
    /\ (forall ws q,
           (closes (trace (final (delete_all ws (start_at q)))) <= 1)%nat).
Proof.
  intros w p tr Hclosed. split; [| split].
  - intros s' Hd. pose proof (delete_returns_effect w p tr None s' Hd) as E.
    cbn in E. rewrite Hclosed in E. exact E.
  - intros pr Hp Hs Hw. rewrite (delete_live_stopped w p pr tr Hp Hs Hw), Hclosed.
    eexists. split; [reflexivity |]. cbn [trace]. rewrite !closes_app. cbn. lia.
  - intros ws q.
    assert (Hinv : close_inv (final (delete_all ws (start_at q)))).
    { apply delete_all_close_inv. unfold close_inv. cbn.
      destruct (cancelChan q) as [[|]|]; cbn; lia. }
    unfold close_inv in Hinv.
    destruct (cancelChan (hdl (final (delete_all ws (start_at q))))) as [[|]|];
      lia.
Qed.

(** A handle whose cancel channel was closed by an earlier [delete]. *)
Lemma delete_close_not_idempotent_witness :
  exists s',
    delete quiet_world
      (mkSt (set_cancelChan (Some ChClosed) (sample_handle 2)) [EvCloseCancel])
    = Panic CloseOfClosedChannel s'
    /\ closes (trace s') = closes [EvCloseCancel].
Proof.
  exact (proj1 (proj2 (delete_close_not_idempotent quiet_world
                         (set_cancelChan (Some ChClosed) (sample_handle 2))
                         [EvCloseCancel] eq_refl))
           (mkOsProcess 42) eq_refl eq_refl eq_refl).
Defined.

(** ** Liveness prober *)

(** [Contains] is the substring test. *)
Lemma prefix_spec (sub s : string) :
  String.prefix sub s = true <-> exists post, s = sub ++ post.
Proof.
  revert s. induction sub as [|c sub IH]; intros s; cbn.
  - split; [intros _; exists s; reflexivity | intros _; destruct s; reflexivity].
  - destruct s as [|d s]; cbn.
    + split; [discriminate | intros [post E]; discriminate E].
    + destruct (Ascii.ascii_dec c d) as [->|Hcd].
      * rewrite IH. split; intros [post E]; exists post; congruence.
      * split; [discriminate | intros [post E]; congruence].
Qed.

Lemma Contains_spec (s sub : string) :
  Contains s sub = true <-> exists pre post, s = pre ++ sub ++ post.
Proof.
  induction s as [|c s IH]; cbn [Contains]; rewrite Bool.orb_true_iff, prefix_spec.
  - split.
    + intros [[post E]|E]; [| discriminate]. exists "", post. exact E.
    + intros [pre [post E]]. left. destruct pre; cbn in E; [eauto | discriminate].
  - rewrite IH. split.
    + intros [[post E]|[pre [post E]]].
      * exists "", post. exact E.
      * exists (String c pre), post. cbn. congruence.
    + intros [pre [post E]]. destruct pre as [|d pre]; cbn in E.
      * left. eauto.
      * right. exists pre, post. congruence.
Qed.

(** C9.  [isAlive] is false on a nil reference.  With a reference whose
    pid resolves, it is false when the error of the probe signal contains
    the "no such process" or the "already finished" text, and true for
    every other answer of the probe signal: no error at all, or an error
    with neither text, such as a permission error. *)
Theorem isAlive_probe_outcomes `{ProbeTexts} :
  forall (w : World) (p : Process),
    (process p = None -> isAlive w p = false)
    /\ (forall pr osProcess,
           process p = Some pr ->
           os_FindProcess w (Pid pr) = inl osProcess ->
           (forall e,
               os_Signal w osProcess 0 = Some e ->
               Contains e noSuchProcess = true
               \/ Contains e alreadyFinished = true ->
               isAlive w p = false)
           /\ (forall e,
                  os_Signal w osProcess 0 = Some e ->
                  Contains e noSuchProcess = false ->
                  Contains e alreadyFinished = false ->
                  isAlive w p = true)
           /\ (os_Signal w osProcess 0 = None -> isAlive w p = true)).
Proof.
  intros w p. unfold isAlive. split.
  - intros ->. reflexivity.
  - intros pr osProcess -> ->. split; [| split].
    + intros e -> [Hc|Hc]; rewrite Hc; [reflexivity |].
      now rewrite Bool.orb_true_r.
    + intros e -> -> ->. reflexivity.
    + intros ->. reflexivity.
Qed.

(** Scenario E: the probe of a process owned by someone else answers
    "operation not permitted", and the handle is reported alive. *)
Lemma isAlive_probe_outcomes_witness :
  @isAlive unix_texts eperm_world (sample_handle 2) = true.
Proof.
  exact (proj1 (proj2 (proj2 (@isAlive_probe_outcomes unix_texts eperm_world
                                (sample_handle 2))
                         (mkOsProcess 42) (mkOsProcess 42) eq_refl eq_refl))
           "operation not permitted" eq_refl eq_refl eq_refl).
Defined.

(** ** Watchdog: one tick *)



(** The events of the observation and of the reaping hold no notification
    and no restart. *)
Lemma observe_events_quiet `{StatusPkg} `{ProbeTexts} w p :
  notifications (snd (observe w p)) = [] /\ restarts (snd (observe w p)) = 0%nat.
Proof.
  unfold observe. destruct (isAlive w p); cbn [negb]; [| now split].
  destruct (p_UpdateStatus w (p_GetPid w)) as [pStatus [e|]];
    destruct (String.eqb (State pStatus) ""); now split.
Qed.

Lemma reapZombie_quiet w :
  notifications (reapZombie w) = [] /\ restarts (reapZombie w) = 0%nat.
Proof. unfold reapZombie. destruct (p_Wait w); now split. Qed.

Lemma restartPolicy_no_notification p n :
  notifications (snd (restartPolicy p n)) = [].
Proof.
  unfold restartPolicy. destruct ((n >? 0)%Z || (n =? infiniteRestarts)%Z); reflexivity.
Qed.

(** The send of a tick, by the state of the sink. *)
Lemma notify_cases w p current :
  (delivers w p
   /\ notify w p current
      = inl (if is_nil (GetNotification p) then [] else [EvNotify current]))
  \/ (~ delivers w p /\ exists why, notify w p current = inr why).
Proof.
  unfold notify, delivers.
  destruct (GetNotification p) as [[|]|]; cbn [is_nil].
  - destruct (sink_ready w).
    + left. now split.
    + right. split; [discriminate | eauto].
  - right. split; [tauto | eauto].
  - left. now split.
Qed.

(** A tick, read off the definition.  Either it runs to its end, and then
    these are its locals, notifications and restarts; or the state changed
    and the send halted the goroutine, and then the locals are untouched
    and nothing but the observation happened. *)
Lemma tick_effect `{StatusPkg} `{ProbeTexts} w p st :
  let current := fst (observe w p) in
  let changed := negb (String.eqb current (last st)) in
  let restarting := changed && String.eqb current Terminated in
  (stop (tick w p st) = None
   /\ (changed = true -> delivers w p)
   /\ next (tick w p st)
      = mkLoop current
          (if restarting then fst (restartPolicy p (numRestarts st))
           else numRestarts st)
   /\ notifications (out (tick w p st))
      = (if changed && negb (is_nil (GetNotification p)) then [current] else [])
   /\ restarts (out (tick w p st))
      = (if restarting then restarts (snd (restartPolicy p (numRestarts st)))
         else 0%nat))
  \/ (exists why,
         stop (tick w p st) = Some why
         /\ changed = true
         /\ ~ delivers w p
         /\ next (tick w p st) = st
         /\ out (tick w p st) = snd (observe w p)).
Proof.
  cbn zeta. unfold tick.
  destruct (observe_events_quiet w p) as [Hn Hr].
  destruct (observe w p) as [current evObserve]. cbn [fst snd] in *.
  destruct (String.eqb current (last st)); cbn [negb andb].
  - left. cbn [stop next out]. repeat split; try assumption. discriminate.
  - destruct (notify_cases w p current) as [[Hd ->]|[Hd [why ->]]].
    + left.
      pose proof (restartPolicy_no_notification p (numRestarts st)) as Hpn.
      destruct (reapZombie_quiet w) as [Hzn Hzr].
      destruct (String.eqb current Terminated);
        [destruct (restartPolicy p (numRestarts st)) as [n evRestart] |];
        cbn [fst snd stop next out] in *;
        destruct (String.eqb current Zombie);
        destruct (is_nil (GetNotification p)); cbn [negb];
        rewrite ?notifications_app, ?restarts_app, ?Hn, ?Hr, ?Hpn, ?Hzn, ?Hzr;
        cbn; rewrite ?List.app_nil_r, ?Nat.add_0_r;
        repeat split; try reflexivity; intros _; exact Hd.
    + right. exists why. cbn [stop next out]. repeat split. exact Hd.
Qed.

(** A tick whose send can go through runs to its end. *)
Lemma tick_delivered `{StatusPkg} `{ProbeTexts} w p st :
  delivers w p ->
  let current := fst (observe w p) in
  let changed := negb (String.eqb current (last st)) in
  let restarting := changed && String.eqb current Terminated in
  stop (tick w p st) = None
  /\ next (tick w p st)
     = mkLoop current
         (if restarting then fst (restartPolicy p (numRestarts st))
          else numRestarts st)
  /\ notifications (out (tick w p st))
     = (if changed && negb (is_nil (GetNotification p)) then [current] else [])
  /\ restarts (out (tick w p st))
     = (if restarting then restarts (snd (restartPolicy p (numRestarts st)))
        else 0%nat).
Proof.
  intros Hd. cbn zeta.
  destruct (tick_effect w p st) as [(Hs & _ & Hst & Hn & Hr)|(why & _ & _ & Hnd & _)].
  - repeat split; assumption.
  - contradiction.
Qed.


(** A tick on a closed sink that sees a change panics at the send, and a
    tick whose open sink takes no value stays blocked there: nothing is
    sent, spawned or reaped, and the locals are as before. *)
Lemma tick_halts_at_send `{StatusPkg} `{ProbeTexts} w p st :
  fst (observe w p) <> last st ->
  (GetNotification p = Some ChClosed ->
   tick w p st = mkPass st (snd (observe w p)) (Some (Panicked SendOnClosedChannel)))
  /\ (GetNotification p = Some ChOpen -> sink_ready w = false ->
      tick w p st = mkPass st (snd (observe w p)) (Some BlockedOnSend)).
Proof.
  intros Hne. unfold tick, notify.
  destruct (observe w p) as [current evObserve]. cbn [fst snd] in *.
  apply String.eqb_neq in Hne. rewrite Hne. cbn [negb].
  split; [intros -> | intros -> ->]; reflexivity.
Qed.

(** ** Watchdog: the loop, wake-up by wake-up *)

Lemma watch_loop_app `{StatusPkg} `{ProbeTexts} ws1 ws2 :
  forall st,
    running (watch_loop ws1 st) ->
    watch_loop (ws1 ++ ws2) st
    = mkRun (events (watch_loop ws1 st)
             ++ events (watch_loop ws2 (locals (watch_loop ws1 st))))%list
            (locals (watch_loop ws2 (locals (watch_loop ws1 st))))
            (returned (watch_loop ws2 (locals (watch_loop ws1 st))))
            (stopped (watch_loop ws2 (locals (watch_loop ws1 st)))).
Proof.
  induction ws1 as [|[w p|p] rest IH]; intros st [Hret Hstop];
    cbn [watch_loop List.app] in *.
  - cbn. now destruct (watch_loop ws2 st).
  - destruct (stop (tick w p st)) as [why|]; cbn [returned stopped] in *;
      [discriminate |].
    rewrite (IH (next (tick w p st)) (conj Hret Hstop)).
    cbn [events locals returned stopped]. now rewrite List.app_assoc.
  - destruct (cancelChan p) as [[|]|];
      [apply IH; now split | | apply IH; now split].
    destruct (snd (cancelled p)); cbn [returned stopped] in *; discriminate.
Qed.

(** Serving one more tick after a run that is still going. *)
Lemma watch_snoc_tick `{StatusPkg} `{ProbeTexts} p0 ws w p :
  running (watch p0 ws) ->
  events (watch p0 (ws ++ [TickerC w p]))
  = (events (watch p0 ws) ++ out (tick w p (locals (watch p0 ws))))%list
  /\ locals (watch p0 (ws ++ [TickerC w p]))
     = next (tick w p (locals (watch p0 ws)))
  /\ returned (watch p0 (ws ++ [TickerC w p])) = false
  /\ stopped (watch p0 (ws ++ [TickerC w p]))
     = stop (tick w p (locals (watch p0 ws))).
Proof.
  intros Hrun. unfold watch in *. unfold running in Hrun.
  cbn [returned stopped events locals] in *.
  rewrite (watch_loop_app ws [TickerC w p] _ Hrun).
  cbn [events locals returned stopped watch_loop].
  set (st := locals (watch_loop ws (mkLoop "" (initialRestarts p0)))).
  destruct (tick_effect w p st) as [(Hs & _)|(why & Hs & _ & _ & Hnext & _)].
  - rewrite Hs. cbn [events locals returned stopped].
    rewrite List.app_nil_r. repeat split.
  - rewrite Hs. cbn [events locals returned stopped]. rewrite Hnext.
    repeat split.
Qed.



(** ** Watchdog: the restart budget *)

Lemma wrap32_pred (n : Z) :
  0 < n <= int32_max -> wrap32 (n - 1) = n - 1.
Proof.
  unfold wrap32, int32_max. change (2 ^ 31) with 2147483648.
  change (2 ^ 32) with 4294967296. intros Hn.
  rewrite Z.mod_small by lia. lia.
Qed.

Lemma restartPolicy_positive p n :
  0 < n <= int32_max -> restartPolicy p n = (n - 1, [EvGoRestart]).
Proof.
  intros Hn. unfold restartPolicy.
  replace (n >? 0)%Z with true by (symmetry; apply Z.gtb_lt; lia).
  cbn [orb]. now rewrite wrap32_pred.
Qed.

Lemma restartPolicy_zero p :
  restartPolicy p 0
  = (0, [EvLog Logging.DebugLevel "no more attempts to restart process %s"
               [AStr (name p)]]).
Proof. reflexivity. Qed.

Lemma restartPolicy_infinite p :
  restartPolicy p infiniteRestarts = (-2, [EvGoRestart]).
Proof. reflexivity. Qed.

Lemma restartPolicy_spent p :
  restartPolicy p (-2)
  = (-2, [EvLog Logging.DebugLevel "no more attempts to restart process %s"
                [AStr (name p)]]).
Proof. reflexivity. Qed.

Lemma cancelled_no_restart p : restarts (fst (cancelled p)) = 0%nat.
Proof. unfold cancelled. destruct (GetNotification p) as [[|]|]; reflexivity. Qed.

Lemma tick_stop_next `{StatusPkg} `{ProbeTexts} w p st why :
  stop (tick w p st) = Some why ->
  next (tick w p st) = st
  /\ notifications (out (tick w p st)) = []
  /\ restarts (out (tick w p st)) = 0%nat.
Proof.
  intros Hs.
  destruct (tick_effect w p st) as [(Hs' & _)|(why' & _ & _ & _ & Hnext & Hout)].
  - congruence.
  - rewrite Hnext, Hout. destruct (observe_events_quiet w p). now repeat split.
Qed.

(** The tick case of the loop, with the locals read from the tick in both
    outcomes. *)
Lemma watch_loop_tick `{StatusPkg} `{ProbeTexts} w p rest st :
  watch_loop (TickerC w p :: rest) st
  = match stop (tick w p st) with
    | Some why => mkRun (out (tick w p st)) (next (tick w p st)) false (Some why)
    | None =>
        mkRun (out (tick w p st)
               ++ events (watch_loop rest (next (tick w p st))))%list
              (locals (watch_loop rest (next (tick w p st))))
              (returned (watch_loop rest (next (tick w p st))))
              (stopped (watch_loop rest (next (tick w p st))))
    end.
Proof.
  cbn [watch_loop]. destruct (stop (tick w p st)) as [why|] eqn:Hs; [| reflexivity].
  now rewrite (proj1 (tick_stop_next w p st why Hs)).
Qed.

(** A tick under a finite budget: the counter stays within bounds and
    drops by the number of restarts spawned. *)
Lemma tick_finite `{StatusPkg} `{ProbeTexts} w p st :
  0 <= numRestarts st <= int32_max ->
  0 <= numRestarts (next (tick w p st)) <= numRestarts st
  /\ Z.of_nat (restarts (out (tick w p st)))
     = numRestarts st - numRestarts (next (tick w p st)).
Proof.
  intros Hn.
  destruct (tick_effect w p st) as [(_ & _ & Hst & _ & Hr)|(why & Hs & _)].
  - rewrite Hst, Hr. cbn [numRestarts].
    destruct (negb (String.eqb (fst (observe w p)) (last st))
              && String.eqb (fst (observe w p)) Terminated).
    + destruct (Z.eq_dec (numRestarts st) 0) as [E|E].
      * rewrite E, restartPolicy_zero. cbn. lia.
      * rewrite restartPolicy_positive by lia. cbn. lia.
    + cbn. lia.
  - destruct (tick_stop_next w p st why Hs) as (-> & _ & ->). cbn. lia.
Qed.

Lemma watch_loop_finite `{StatusPkg} `{ProbeTexts} ws :
  forall st,
    0 <= numRestarts st <= int32_max ->
    0 <= numRestarts (locals (watch_loop ws st)) <= numRestarts st
    /\ Z.of_nat (restarts (events (watch_loop ws st)))
       = numRestarts st - numRestarts (locals (watch_loop ws st)).
Proof.
  induction ws as [|[w p|p] rest IH]; intros st Hn.
  - cbn. lia.
  - rewrite watch_loop_tick. pose proof (tick_finite w p st Hn) as [Hb Hc].
    destruct (stop (tick w p st)); cbn [events locals].
    + split; [exact Hb | exact Hc].
    + destruct (IH (next (tick w p st))) as [Hb' Hc']; [lia |].
      rewrite restarts_app, Nat2Z.inj_add. lia.
  - cbn [watch_loop].
    destruct (cancelChan p) as [[|]|]; try (apply IH; exact Hn).
    destruct (snd (cancelled p)); cbn [events locals];
      rewrite cancelled_no_restart; cbn; lia.
Qed.



(** A run whose counter has reached -2 spawns nothing any more. *)
Lemma watch_loop_spent `{StatusPkg} `{ProbeTexts} ws :
  forall st,
    numRestarts st = -2 ->
    restarts (events (watch_loop ws st)) = 0%nat
    /\ numRestarts (locals (watch_loop ws st)) = -2.
Proof.
  induction ws as [|[w p|p] rest IH]; intros st Hn.
  - now split.
  - rewrite watch_loop_tick.
    destruct (tick_effect w p st) as [(Hs & _ & Hst & _ & Hr)|(why & Hs & _)].
    + rewrite Hs. cbn [events locals].
      rewrite Hn, restartPolicy_spent in Hst, Hr. cbn [fst snd] in Hst, Hr.
      destruct (IH (next (tick w p st))) as [Hr' Hn'].
      { rewrite Hst. cbn [numRestarts]. now destruct (_ && _). }
      rewrite restarts_app, Hr, Hr', Hn'. now destruct (_ && _).
    + rewrite Hs. cbn [events locals].
      destruct (tick_stop_next w p st why Hs) as (-> & _ & ->). now split.
  - cbn [watch_loop].
    destruct (cancelChan p) as [[|]|]; try (apply IH; exact Hn).
    destruct (snd (cancelled p)); cbn [events locals];
      now rewrite cancelled_no_restart.
Qed.

Lemma watch_loop_infinite `{StatusPkg} `{ProbeTexts} ws :
  forall st,
    numRestarts st = infiniteRestarts ->
    (restarts (events (watch_loop ws st)) = 0%nat
     /\ numRestarts (locals (watch_loop ws st)) = infiniteRestarts)
    \/ (restarts (events (watch_loop ws st)) = 1%nat
        /\ numRestarts (locals (watch_loop ws st)) = -2).
Proof.
  induction ws as [|[w p|p] rest IH]; intros st Hn.
  - left. now split.
  - rewrite watch_loop_tick.
    destruct (tick_effect w p st) as [(Hs & _ & Hst & _ & Hr)|(why & Hs & _)].
    + rewrite Hs. cbn [events locals].
      rewrite Hn, restartPolicy_infinite in Hst, Hr. cbn [fst snd] in Hst, Hr.
      rewrite restarts_app, Hr.
      destruct (negb (String.eqb (fst (observe w p)) (last st))
                && String.eqb (fst (observe w p)) Terminated).
      * right. destruct (watch_loop_spent rest (next (tick w p st))) as [Hr' Hn'].
        { rewrite Hst. reflexivity. }
        rewrite Hr', Hn'. now split.
      * apply (IH (next (tick w p st))). rewrite Hst. reflexivity.
    + rewrite Hs. cbn [events locals].
      destruct (tick_stop_next w p st why Hs) as (-> & _ & ->). left. now split.
  - cbn [watch_loop].
    destruct (cancelChan p) as [[|]|]; try (apply IH; exact Hn).
    destruct (snd (cancelled p)); cbn [events locals];
      left; now rewrite cancelled_no_restart.
Qed.

(** C2 (as the code behaves).  Started with the budget -1, the watcher
    spawns at most one restart in a whole run: the first change to
    [Terminated] spawns one and takes the counter from -1 to -2, and from
    then on a change to [Terminated] spawns nothing and leaves the counter
    at -2.  This is for a tick whose send on the sink goes through; a
    tick that halts at the send spawns nothing and leaves the counter as
    it was. *)
Theorem watch_infinite_budget_restarts_once `{StatusPkg} `{ProbeTexts} :
  forall (p0 : Process),
    initialRestarts p0 = infiniteRestarts ->
    (forall ws,
        (restarts (events (watch p0 ws)) = 0%nat
         /\ numRestarts (locals (watch p0 ws)) = infiniteRestarts)
        \/ (restarts (events (watch p0 ws)) = 1%nat
            /\ numRestarts (locals (watch p0 ws)) = -2))
    /\ (forall ws w p,
           let st := locals (watch p0 ws) in
           fst (observe w p) = Terminated ->
           last st <> Terminated ->
           (delivers w p ->
            (numRestarts st = infiniteRestarts ->
             restarts (out (tick w p st)) = 1%nat
             /\ numRestarts (next (tick w p st)) = -2)
            /\ (numRestarts st = -2 ->
                restarts (out (tick w p st)) = 0%nat
                /\ numRestarts (next (tick w p st)) = -2))
           /\ (~ delivers w p ->
               restarts (out (tick w p st)) = 0%nat
               /\ next (tick w p st) = st)).
Proof.
  intros p0 Hinf. split.
  - intros ws. unfold watch. cbn [locals events]. rewrite Hinf.
    change (restarts (?e :: ?l)) with (restarts l).
    apply watch_loop_infinite. reflexivity.
  - intros ws w p st Hobs Hlast. split.
    + intros Hd. destruct (tick_delivered w p st Hd) as (_ & Hst & _ & Hr).
      rewrite Hobs in Hst, Hr. rewrite String.eqb_refl in Hst, Hr.
      replace (String.eqb Terminated (last st)) with false in Hst, Hr
        by (symmetry; apply String.eqb_neq; congruence).
      cbn [negb andb] in Hst, Hr. rewrite Hst, Hr. cbn [numRestarts]. split.
      * intros ->. rewrite restartPolicy_infinite. split; reflexivity.
      * intros ->. rewrite restartPolicy_spent. split; reflexivity.
    + intros Hnd.
      destruct (tick_effect w p st) as [(_ & Hd & _)|(why & Hs & _)].
      * exfalso. apply Hnd, Hd. rewrite Hobs.
        replace (String.eqb Terminated (last st)) with false
          by (symmetry; apply String.eqb_neq; congruence).
        reflexivity.
      * destruct (tick_stop_next w p st why Hs) as (Hnext & _ & Hr).
        now split.
Qed.

(** The process dies, is seen running again, and dies again: both deaths
    are notified, one restart is spawned. *)
Lemma watch_infinite_budget_restarts_once_witness :
  ((restarts
      (events (@watch status_names unix_texts (sample_handle (-1))
                 [TickerC gone_world (sample_handle (-1));
                  TickerC quiet_world (sample_handle (-1));
                  TickerC gone_world (sample_handle (-1))])) = 0%nat
    /\ numRestarts
         (locals (@watch status_names unix_texts (sample_handle (-1))
                    [TickerC gone_world (sample_handle (-1));
                     TickerC quiet_world (sample_handle (-1));
                     TickerC gone_world (sample_handle (-1))]))
       = infiniteRestarts)
   \/ (restarts
         (events (@watch status_names unix_texts (sample_handle (-1))
                    [TickerC gone_world (sample_handle (-1));
                     TickerC quiet_world (sample_handle (-1));
                     TickerC gone_world (sample_handle (-1))])) = 1%nat
       /\ numRestarts
            (locals (@watch status_names unix_texts (sample_handle (-1))
                       [TickerC gone_world (sample_handle (-1));
                        TickerC quiet_world (sample_handle (-1));
                        TickerC gone_world (sample_handle (-1))]))
          = -2))
  /\ notifications
       (events (@watch status_names unix_texts (sample_handle (-1))
                  [TickerC gone_world (sample_handle (-1));
                   TickerC quiet_world (sample_handle (-1));
                   TickerC gone_world (sample_handle (-1))]))
     = ["terminated"; "running"; "terminated"].
Proof.
  split.
  - exact (proj1 (@watch_infinite_budget_restarts_once status_names unix_texts
                    (sample_handle (-1)) eq_refl)
             [TickerC gone_world (sample_handle (-1));
              TickerC quiet_world (sample_handle (-1));
              TickerC gone_world (sample_handle (-1))]).
  - reflexivity.
Defined.

(** ** Watchdog: the budget is read once *)

Lemma GetNotification_same_but_restart p q :
  same_but_restart p q -> GetNotification p = GetNotification q.
Proof.
  intros (_ & _ & _ & _ & _ & Ho). unfold GetNotification.
  destruct (options p) as [x|], (options q) as [y|]; cbn in Ho;
    try contradiction; [apply Ho | reflexivity].
Qed.

Lemma tick_same_but_restart `{StatusPkg} `{ProbeTexts} w p q st :
  same_but_restart p q -> tick w p st = tick w q st.
Proof.
  intros Hsim. pose proof (GetNotification_same_but_restart p q Hsim) as Hg.
  destruct Hsim as (Hname & _ & Hproc & _ & _ & _).
  unfold tick, observe, isAlive, notify, restartPolicy.
  rewrite Hproc, Hg, Hname. reflexivity.
Qed.

Lemma watch_loop_sim `{StatusPkg} `{ProbeTexts} ws1 ws2 :
  Forall2 wakeup_sim ws1 ws2 ->
  forall st, watch_loop ws1 st = watch_loop ws2 st.
Proof.
  induction 1 as [|a b l1 l2 Hab _ IH]; intros st; [reflexivity |].
  destruct Hab as [w p q Hsim|p q Hsim]; cbn [watch_loop].
  - rewrite (tick_same_but_restart w p q st Hsim).
    destruct (stop (tick w q st)); [reflexivity | now rewrite IH].
  - pose proof (GetNotification_same_but_restart p q Hsim) as Hg.
    destruct Hsim as (Hname & _ & _ & _ & Hc & _).
    unfold cancelled. rewrite Hc, Hg, Hname, IH. reflexivity.
Qed.

(** The restart goroutine writes [process] and [startTime] only. *)
Lemma restartTask_keeps_options w s :
  options (hdl (final (restartTask w s))) = options (hdl s).
Proof.
  destruct s as [p tr]. run_go.
  destruct (os_Getwd w) as [wd [e|]]; [reflexivity |]. cbn.
  destruct (options p) as [o|] eqn:Ho; cbn; [| exact Ho].
  destruct (os_StartProcess w (cmd p) (cmd p :: args o) _) as [pr|e]; cbn;
    exact Ho.
Qed.

(** C10.  [watch] copies the configured budget, [p.options.restart] (0
    without an option block), into [numRestarts] before its first wake-up,
    and that is the only time it reads it: two runs started on the same
    handle whose wake-ups find handles that differ at most in the
    configured budget produce the same events, locals and outcome, and so
    spend the budget that was configured at the start.  Nothing the loop
    runs writes the option block. *)
Theorem watch_budget_read_once `{StatusPkg} `{ProbeTexts} :
  forall (p0 : Process) (ws1 ws2 : list Wakeup),
    Forall2 wakeup_sim ws1 ws2 ->
    watch p0 ws1 = watch p0 ws2
    /\ numRestarts (locals (watch p0 []))
       = match options p0 with
         | Some o => restart o
         | None => 0
         end
    /\ (0 <= initialRestarts p0 <= int32_max ->
        Z.of_nat (restarts (events (watch p0 ws2)))
        = match options p0 with
          | Some o => restart o
          | None => 0
          end - numRestarts (locals (watch p0 ws1)))
    /\ (forall w s, options (hdl (final (restartTask w s))) = options (hdl s)).
Proof.
  intros p0 ws1 ws2 Hsim.
  assert (Heq : watch p0 ws1 = watch p0 ws2).
  { unfold watch. now rewrite (watch_loop_sim ws1 ws2 Hsim). }
  split; [exact Heq | split; [reflexivity | split]].
  - intros Hrange. rewrite <- Heq. unfold watch. cbn [events locals].
    change (restarts (?e :: ?l)) with (restarts l).
    exact (proj2 (watch_loop_finite ws1 (mkLoop "" (initialRestarts p0)) Hrange)).
  - apply restartTask_keeps_options.
Qed.

(** A caller raises the configured budget from 1 to 7 after the watcher
    has started: the run is the same as without the change. *)
Lemma watch_budget_read_once_witness :
  @watch status_names unix_texts (sample_handle 1)
    [TickerC gone_world (sample_handle 1);
     TickerC quiet_world (sample_handle 1);
     TickerC gone_world (sample_handle 1);
     CancelC (set_cancelChan (Some ChClosed) (sample_handle 1))]
  = @watch status_names unix_texts (sample_handle 1)
      [TickerC gone_world (sample_handle 7);
       TickerC quiet_world (sample_handle 7);
       TickerC gone_world (sample_handle 7);
       CancelC (set_cancelChan (Some ChClosed) (sample_handle 7))].
Proof.
  refine (proj1 (@watch_budget_read_once status_names unix_texts
                   (sample_handle 1) _ _ _)).
  repeat constructor.
Defined.

(** * Further properties of the supervisor *)

Lemma signals_app (a b : list Event) :
  signals (a ++ b) = (signals a ++ signals b)%list.
Proof. unfold signals. apply List.flat_map_app. Qed.

Lemma starts_app (a b : list Event) :
  starts (a ++ b) = (starts a ++ starts b)%list.
Proof. unfold starts. apply List.flat_map_app. Qed.

Lemma releases_app (a b : list Event) :
  releases (a ++ b) = (releases a + releases b)%nat.
Proof.
  unfold releases. rewrite List.filter_app, List.length_app. reflexivity.
Qed.

Lemma waits_app (a b : list Event) :
  waits (a ++ b) = (waits a + waits b)%nat.
Proof.
  unfold waits. rewrite List.filter_app, List.length_app. reflexivity.
Qed.

(** ** Graceful stop *)

(** X1.  [stopProcess] always returns.  It returns nil exactly when the
    handle holds a reference and the termination signal is accepted; it
    clears [startTime] exactly then and leaves it alone on an error.  It
    sends one SIGTERM to the reference if there is one and no signal
    otherwise, and it never changes the reference, the option block or the
    cancel channel. *)
Theorem stopProcess_outcomes :
  forall (w : World) (p : Process) (tr : list Event),
  exists err s',
    stopProcess w (mkSt p tr) = Ret err s'
    /\ (err = None
        <-> exists pr, process p = Some pr /\ os_Signal w pr SIGTERM = None)
    /\ startTime (hdl s') = (if is_nil err then zeroTime else startTime p)
    /\ process (hdl s') = process p
    /\ options (hdl s') = options p
    /\ cancelChan (hdl s') = cancelChan p
    /\ signals (trace s')
       = (signals tr
          ++ match process p with
             | Some pr => [(pr, SIGTERM)]
             | None => []
             end)%list.
Proof.
  intros w p tr. run_go.
  destruct (process p) as [pr|] eqn:Hp; cbn.
  - destruct (os_Signal w pr SIGTERM) as [e|] eqn:Hs; cbn.
    + do 2 eexists. split; [reflexivity |]. cbn. rewrite signals_app.
      repeat split; try reflexivity; try discriminate; try assumption.
      intros (pr' & Hpr' & Hs'). congruence.
    + do 2 eexists. split; [reflexivity |]. cbn. rewrite signals_app.
      repeat split; try reflexivity; try assumption. intros _. eauto.
  - do 2 eexists. split; [reflexivity |]. cbn. rewrite List.app_nil_r.
    repeat split; try reflexivity; try discriminate; try assumption.
    intros (pr' & Hpr' & _). discriminate.
Qed.

(** ** Delete *)

(** X2.  Whatever [delete] does (return nil, return an error or panic),
    the only signal it sends is one SIGTERM to the reference the handle
    holds, or none when it holds none: no SIGKILL is sent and no
    resource is released, also on the forced path.  The reference, the
    option block, the name and the command are as before. *)
Theorem delete_sends_sigterm_only :
  forall (w : World) (p : Process) (tr : list Event),
    signals (trace (final (delete w (mkSt p tr))))
    = (signals tr
       ++ match process p with
          | Some pr => [(pr, SIGTERM)]
          | None => []
          end)%list
    /\ releases (trace (final (delete w (mkSt p tr)))) = releases tr
    /\ process (hdl (final (delete w (mkSt p tr)))) = process p
    /\ options (hdl (final (delete w (mkSt p tr)))) = options p
    /\ name (hdl (final (delete w (mkSt p tr)))) = name p
    /\ cmd (hdl (final (delete w (mkSt p tr)))) = cmd p.
Proof.
  intros w p tr. destruct (process p) as [pr|] eqn:Hp.
  - destruct (os_Signal w pr SIGTERM) as [e|] eqn:Hs.
    + rewrite (delete_live_signal_fails w p pr tr e Hp Hs). cbn [final hdl trace].
      rewrite !signals_app, !releases_app. cbn.
      rewrite List.app_nil_r, !Nat.add_0_r. repeat split; assumption || reflexivity.
    + destruct (p_Wait w) as [e|] eqn:Hw.
      * rewrite (delete_live_wait_fails w p pr tr e Hp Hs Hw). cbn [final hdl trace].
        rewrite !signals_app, !releases_app. cbn.
        rewrite List.app_nil_r, !Nat.add_0_r.
        repeat split; assumption || reflexivity.
      * rewrite (delete_live_stopped w p pr tr Hp Hs Hw).
        destruct (cancelChan p) as [[|]|]; cbn [final hdl trace];
          rewrite !signals_app, !releases_app; cbn;
          rewrite ?List.app_nil_r, ?Nat.add_0_r;
          repeat split; assumption || reflexivity.
  - rewrite (delete_nil_process w p tr Hp). cbn [final hdl trace].
    rewrite !signals_app, !releases_app. cbn.
    rewrite !List.app_nil_r, !Nat.add_0_r. repeat split; assumption || reflexivity.
Qed.

(** X3.  On a handle that holds no reference [delete] does not return:
    the graceful stop refuses, the warning is logged, and the forced stop
    panics on the nil reference.  The handle is untouched and the cancel
    channel is not closed. *)
Theorem delete_without_reference_panics :
  forall (w : World) (p : Process) (tr : list Event),
    process p = None ->
    exists s',
      delete w (mkSt p tr) = Panic NilDereference s'
      /\ hdl s' = p
      /\ closes (trace s') = closes tr
      /\ In (stopWarning p (Some "asked to stop non-existing process instance"))
            (trace s').
Proof.
  intros w p tr Hp. rewrite (delete_nil_process w p tr Hp).
  eexists. split; [reflexivity |]. cbn [hdl trace]. split; [reflexivity |].
  split.
  - rewrite closes_app. cbn. lia.
  - apply List.in_or_app. right. left. reflexivity.
Qed.

Lemma delete_without_reference_panics_witness :
  exists s',
    delete quiet_world (mkSt bare_handle []) = Panic NilDereference s'
    /\ hdl s' = bare_handle
    /\ closes (trace s') = closes []
    /\ In (stopWarning bare_handle
             (Some "asked to stop non-existing process instance"))
          (trace s').
Proof.
  exact (delete_without_reference_panics quiet_world bare_handle [] eq_refl).
Defined.

(** ** Launcher *)

(** X4.  [startProcess] reads [p.options.args] without the nil check it
    applies to [p.options.detach]: on a handle without an option block it
    returns the working-directory error when [os.Getwd] fails and panics
    on the nil option block otherwise, before any process is created. *)
Theorem startProcess_without_options :
  forall (w : World) (p : Process) (tr : list Event),
    options p = None ->
    (forall e,
        snd (os_Getwd w) = Some e ->
        startProcess w (mkSt p tr)
        = Ret (None, Some ("failed to get rooted path name for: " ++ e))
              (mkSt p tr))
    /\ (snd (os_Getwd w) = None ->
        startProcess w (mkSt p tr) = Panic NilDereference (mkSt p tr)).
Proof.
  intros w p tr Ho. unfold startProcess.
  destruct (os_Getwd w) as [wd err]. cbn [snd]. split.
  - intros e ->. reflexivity.
  - intros ->. run_go. rewrite Ho. reflexivity.
Qed.

Lemma startProcess_without_options_witness :
  startProcess quiet_world (mkSt bare_handle [])
  = Panic NilDereference (mkSt bare_handle []).
Proof.
  exact (proj2 (startProcess_without_options quiet_world bare_handle []
                  eq_refl) eq_refl).
Defined.

(** What [startProcess] does on a handle with an option block. *)
Lemma startProcess_with_options w p o tr :
  options p = Some o ->
  startProcess w (mkSt p tr)
  = match os_Getwd w with
    | (wd, Some e) =>
        Ret (None, Some ("failed to get rooted path name for: " ++ e)) (mkSt p tr)
    | (wd, None) =>
        match os_StartProcess w (cmd p) (cmd p :: args o) (launchAttr w wd o) with
        | inr e =>
            Ret (None,
                 Some ("failed to start new process (cmd: " ++ cmd p ++ "): " ++ e))
                (mkSt p (tr ++ [EvStartProcess (cmd p) (cmd p :: args o)
                                  (launchAttr w wd o)])%list)
        | inl pr =>
            Ret (Some pr, None)
                (mkSt (set_startTime (Some (os_Now w)) p)
                      ((tr ++ [EvStartProcess (cmd p) (cmd p :: args o)
                                 (launchAttr w wd o)])
                       ++ [EvReadStatus (Pid pr)])%list)
        end
    end.
Proof.
  intros Ho. unfold startProcess, launchAttr.
  destruct (os_Getwd w) as [wd [e|]]; [reflexivity |].
  run_go. rewrite Ho. cbn.
  destruct (os_StartProcess w (cmd p) (cmd p :: args o) _) as [pr|e]; reflexivity.
Qed.

(** X5.  On a handle with an option block [startProcess] always returns,
    and it returns either a process with a nil error or a nil process
    with an error, never both and never neither.  [startTime] is set to
    the current time exactly on success; a failed start leaves the whole
    handle as it was.  [startProcess] itself never writes the reference
    of the handle. *)
Theorem startProcess_result_or_error :
  forall (w : World) (p : Process) (o : POptions) (tr : list Event),
    options p = Some o ->
    exists r s',
      startProcess w (mkSt p tr) = Ret r s'
      /\ ((exists pr, r = (Some pr, None)
                      /\ hdl s' = set_startTime (Some (os_Now w)) p)
          \/ (exists e, r = (None, Some e) /\ hdl s' = p))
      /\ process (hdl s') = process p.
Proof.
  intros w p o tr Ho. rewrite (startProcess_with_options w p o tr Ho).
  destruct (os_Getwd w) as [wd [e|]].
  - do 2 eexists. split; [reflexivity |]. split; [right; eauto | reflexivity].
  - destruct (os_StartProcess w (cmd p) (cmd p :: args o) (launchAttr w wd o))
      as [pr|e].
    + do 2 eexists. split; [reflexivity |]. split; [left; eauto | reflexivity].
    + do 2 eexists. split; [reflexivity |]. split; [right; eauto | reflexivity].
Qed.

Lemma startProcess_result_or_error_witness :
  exists r s',
    startProcess nofork_world (mkSt (sample_handle 2) []) = Ret r s'
    /\ ((exists pr, r = (Some pr, None)
                    /\ hdl s' = set_startTime (Some (os_Now nofork_world))
                                  (sample_handle 2))
        \/ (exists e, r = (None, Some e) /\ hdl s' = sample_handle 2))
    /\ process (hdl s') = process (sample_handle 2).
Proof.
  exact (startProcess_result_or_error nofork_world (sample_handle 2)
           (sample_options 2) [] eq_refl).
Defined.

(** X6.  When the working directory resolves, [startProcess] calls
    [os.StartProcess] exactly once: the command is also argument 0, the
    working directory and the environment are the host's, only standard
    input is wired (standard output and error are nil), and the process
    gets its own process group exactly when [detach] is set.  When the
    working directory does not resolve, no process is created. *)
Theorem startProcess_launch_attributes :
  forall (w : World) (p : Process) (o : POptions) (tr : list Event),
    options p = Some o ->
    (forall wd,
        os_Getwd w = (wd, None) ->
        starts (trace (final (startProcess w (mkSt p tr))))
        = (starts tr
           ++ [(cmd p, cmd p :: args o,
                mkProcAttr wd (os_Environ w) [Some Stdin; None; None]
                  (if detach o then Some (mkSysProcAttr true 0) else None))])%list)
    /\ (forall wd e,
           os_Getwd w = (wd, Some e) ->
           starts (trace (final (startProcess w (mkSt p tr)))) = starts tr).
Proof.
  intros w p o tr Ho. rewrite (startProcess_with_options w p o tr Ho). split.
  - intros wd ->. fold (launchAttr w wd o).
    destruct (os_StartProcess w (cmd p) (cmd p :: args o) (launchAttr w wd o))
      as [pr|e]; cbn [final trace]; rewrite !starts_app; cbn;
      rewrite ?List.app_nil_r; reflexivity.
  - intros wd e ->. reflexivity.
Qed.

Lemma startProcess_launch_attributes_witness :
  starts (trace (final (startProcess quiet_world (mkSt (sample_handle 2) []))))
  = [("/bin/agent", ["/bin/agent"; "--serve"],
      mkProcAttr "/" [] [Some Stdin; None; None] (Some (mkSysProcAttr true 0)))].
Proof.
  exact (proj1 (startProcess_launch_attributes quiet_world (sample_handle 2)
                  (sample_options 2) [] eq_refl) "/" eq_refl).
Defined.

(** X7.  The restart goroutine assigns the result of [startProcess] to
    the reference also when the start failed: after a failed restart the
    handle holds no reference, whatever it held before, so [isAlive] is
    false in every world and a later [stopProcess] refuses; the failure is
    logged as an error.  After a successful restart the handle holds the
    new process. *)
Theorem restartTask_replaces_reference `{ProbeTexts} :
  forall (w : World) (s s1 : St) (r : option OsProcess * error),
    startProcess w s = Ret r s1 ->
    exists s2,
      restartTask w s = Ret tt s2
      /\ process (hdl s2) = fst r
      /\ startTime (hdl s2) = startTime (hdl s1)
      /\ (fst r = None ->
          (forall w', isAlive w' (hdl s2) = false)
          /\ (forall w',
                 result (stopProcess w' s2)
                 = Some (Some "asked to stop non-existing process instance")))
      /\ (snd r <> None ->
          In (EvLog Logging.ErrorLevel "attempt to restart process %s failed: %v"
                [AStr (name (hdl s1)); AErr (snd r)])
             (trace s2)).
Proof.
  intros w s s1 [pr err] Hstart. unfold restartTask, bind at 1. rewrite Hstart.
  cbn [fst snd]. unfold bind, setp, getp, log, emit, ret.
  assert (Hdead : forall q, process q = None ->
                    (forall w', isAlive w' q = false)
                    /\ (forall w' tr,
                           result (stopProcess w' (mkSt q tr))
                           = Some (Some "asked to stop non-existing process instance"))).
  { intros q Hq. split; intros w'; [unfold isAlive; now rewrite Hq |].
    intros tr. run_go. now rewrite Hq. }
  destruct err as [e|]; eexists; (split; [reflexivity |]);
    cbn [hdl trace process startTime name set_process];
    (split; [reflexivity |]); (split; [reflexivity |]); split.
  - intros ->. split; [apply Hdead; reflexivity |].
    intros w'. apply (proj2 (Hdead (set_process None (hdl s1)) eq_refl)).
  - intros _. apply List.in_or_app. right. left. reflexivity.
  - intros ->. split; [apply Hdead; reflexivity |].
    intros w'. apply (proj2 (Hdead (set_process None (hdl s1)) eq_refl)).
  - congruence.
Qed.

Lemma restartTask_replaces_reference_witness :
  exists s2,
    restartTask nofork_world (mkSt (sample_handle 2) []) = Ret tt s2
    /\ process (hdl s2) = None
    /\ startTime (hdl s2) = Some 100
    /\ (@None OsProcess = None ->
        (forall w', @isAlive unix_texts w' (hdl s2) = false)
        /\ (forall w',
               result (stopProcess w' s2)
               = Some (Some "asked to stop non-existing process instance")))
    /\ (Some "failed to start new process (cmd: /bin/agent): fork/exec /bin/agent: no such file or directory"
        <> None ->
        In (EvLog Logging.ErrorLevel "attempt to restart process %s failed: %v"
              [AStr "agent";
               AErr (Some "failed to start new process (cmd: /bin/agent): fork/exec /bin/agent: no such file or directory")])
           (trace s2)).
Proof.
  exact (@restartTask_replaces_reference unix_texts nofork_world
           (mkSt (sample_handle 2) [])
           (mkSt (sample_handle 2)
                 [EvStartProcess "/bin/agent" ["/bin/agent"; "--serve"]
                    (launchAttr nofork_world "/" (sample_options 2))])
           (None,
            Some "failed to start new process (cmd: /bin/agent): fork/exec /bin/agent: no such file or directory")
           eq_refl).
Defined.

(** ** Watchdog: leaving the loop *)

Lemma watch_loop_returned_cancel `{StatusPkg} `{ProbeTexts} ws :
  forall st,
    returned (watch_loop ws st) = true ->
    exists q,
      In (CancelC q) ws /\ cancelChan q = Some ChClosed
      /\ GetNotification q <> Some ChClosed.
Proof.
  induction ws as [|[w p|p] rest IH]; intros st Hret.
  - discriminate.
  - rewrite watch_loop_tick in Hret.
    destruct (stop (tick w p st)); cbn [returned] in Hret; [discriminate |].
    destruct (IH _ Hret) as (q & Hin & Hq). exists q. split; [now right | exact Hq].
  - cbn [watch_loop] in Hret. destruct (cancelChan p) as [[|]|] eqn:Hc.
    + destruct (IH _ Hret) as (q & Hin & Hq). exists q. split; [now right | exact Hq].
    + exists p. split; [now left | split; [exact Hc |]].
      intros Hsink. unfold cancelled in Hret. rewrite Hsink in Hret.
      cbn in Hret. discriminate.
    + destruct (IH _ Hret) as (q & Hin & Hq). exists q. split; [now right | exact Hq].
Qed.

Lemma watch_loop_healthy `{StatusPkg} `{ProbeTexts} ws :
  Forall healthy ws ->
  forall st,
    stopped (watch_loop ws st) = None
    /\ (returned (watch_loop ws st) = true
        <-> exists q, In (CancelC q) ws /\ cancelChan q = Some ChClosed).
Proof.
  induction 1 as [|[w p|p] rest Hh _ IH]; intros st.
  - cbn. split; [reflexivity |]. split; [discriminate | intros (q & [] & _)].
  - rewrite watch_loop_tick. cbn in Hh.
    destruct (tick_delivered w p st Hh) as (-> & _). cbn [returned stopped].
    destruct (IH (next (tick w p st))) as [Hs Hiff]. split; [exact Hs |].
    rewrite Hiff. split; intros (q & Hin & Hc); exists q; (split; [| exact Hc]).
    + now right.
    + destruct Hin as [E|Hin]; [discriminate | exact Hin].
  - cbn [watch_loop]. cbn in Hh. destruct (cancelChan p) as [[|]|] eqn:Hc.
    + destruct (IH st) as [Hs Hiff]. split; [exact Hs |].
      rewrite Hiff. split; intros (q & Hin & Hq); exists q; (split; [| exact Hq]).
      * now right.
      * destruct Hin as [E|Hin]; [| exact Hin]. congruence.
    + unfold cancelled.
      destruct (GetNotification p) as [[|]|]; [| congruence |];
        cbn [fst snd returned stopped]; (split; [reflexivity |]);
        (split; [intros _; exists p; split; [now left | exact Hc] | reflexivity]).
    + destruct (IH st) as [Hs Hiff]. split; [exact Hs |].
      rewrite Hiff. split; intros (q & Hin & Hq); exists q; (split; [| exact Hq]).
      * now right.
      * destruct Hin as [E|Hin]; [| exact Hin]. congruence.
Qed.

(** X8.  [watch] returns only through its cancel case: a run that has
    returned holds a cancel wake-up that found the cancel channel closed
    (and the sink not already closed).  When no tick halts at its send
    and no cancel wake-up finds the sink already closed, the goroutine
    never halts otherwise, and the run has returned exactly when one of
    its wake-ups was a receive on a closed cancel channel: ticks alone
    never make [watch] return, whatever they observe and whatever is left
    of the restart budget. *)
Theorem watch_returns_iff_cancelled `{StatusPkg} `{ProbeTexts} :
  forall (p0 : Process) (ws : list Wakeup),
    (returned (watch p0 ws) = true ->
     exists q,
       In (CancelC q) ws /\ cancelChan q = Some ChClosed
       /\ GetNotification q <> Some ChClosed)
    /\ (Forall healthy ws ->
        stopped (watch p0 ws) = None
        /\ (returned (watch p0 ws) = true
            <-> exists q, In (CancelC q) ws /\ cancelChan q = Some ChClosed)).
Proof.
  intros p0 ws. unfold watch. cbn [returned stopped]. split.
  - apply watch_loop_returned_cancel.
  - intros Hh. apply (watch_loop_healthy ws Hh).
Qed.

Lemma watch_returns_iff_cancelled_witness :
  stopped (@watch status_names unix_texts (sample_handle 0)
             [TickerC gone_world (sample_handle 0);
              TickerC quiet_world (sample_handle 0);
              TickerC gone_world (sample_handle 0)]) = None
  /\ (returned (@watch status_names unix_texts (sample_handle 0)
                  [TickerC gone_world (sample_handle 0);
                   TickerC quiet_world (sample_handle 0);
                   TickerC gone_world (sample_handle 0)]) = true
      <-> exists q,
          In (CancelC q)
             [TickerC gone_world (sample_handle 0);
              TickerC quiet_world (sample_handle 0);
              TickerC gone_world (sample_handle 0)]
          /\ cancelChan q = Some ChClosed).
Proof.
  refine (proj2 (@watch_returns_iff_cancelled status_names unix_texts
                   (sample_handle 0) _) _).
  repeat constructor.
Defined.

(** X9.  When the running loop takes the cancel case it stops the
    ticker; then, with no sink or an open one, it closes the sink (once,
    if there is one), logs and returns; with a sink that is already
    closed it panics on closing it again and neither logs nor returns.
    Either way the events of the run end there, the locals keep their
    values, and no later wake-up has any effect. *)
Theorem watch_stops_at_cancel `{StatusPkg} `{ProbeTexts} :
  forall (p0 q : Process) (ws1 ws2 : list Wakeup),
    running (watch p0 ws1) ->
    cancelChan q = Some ChClosed ->
    events (watch p0 (ws1 ++ CancelC q :: ws2))
    = (events (watch p0 ws1) ++ fst (cancelled q))%list
    /\ locals (watch p0 (ws1 ++ CancelC q :: ws2)) = locals (watch p0 ws1)
    /\ (GetNotification q <> Some ChClosed ->
        returned (watch p0 (ws1 ++ CancelC q :: ws2)) = true
        /\ stopped (watch p0 (ws1 ++ CancelC q :: ws2)) = None
        /\ fst (cancelled q)
           = (EvTickerStop
              :: (if is_nil (GetNotification q) then [] else [EvCloseNotify])
              ++ [EvLog Logging.DebugLevel "Process %s watcher stopped"
                    [AStr (name q)]])%list
        /\ notify_closes (fst (cancelled q))
           = (if is_nil (GetNotification q) then 0%nat else 1%nat))
    /\ (GetNotification q = Some ChClosed ->
        returned (watch p0 (ws1 ++ CancelC q :: ws2)) = false
        /\ stopped (watch p0 (ws1 ++ CancelC q :: ws2))
           = Some (Panicked CloseOfClosedChannel)
        /\ fst (cancelled q) = [EvTickerStop]).
Proof.
  intros p0 q ws1 ws2 Hrun Hc. unfold watch in *. unfold running in Hrun.
  cbn [returned stopped events locals] in *.
  rewrite (watch_loop_app ws1 (CancelC q :: ws2) _ Hrun).
  cbn [events locals returned stopped].
  destruct (watch_loop_cancel_closed q ws2
              (locals (watch_loop ws1 (mkLoop "" (initialRestarts p0)))) Hc)
    as (_ & Hev & Hloc & _ & Hok & Hpanic).
  rewrite Hev, Hloc. split; [reflexivity | split; [reflexivity | split]].
  - intros Hsink. destruct (Hok Hsink) as [-> ->].
    split; [reflexivity | split; [reflexivity |]].
    unfold cancelled. destruct (GetNotification q) as [[|]|];
      [| congruence |]; now split.
  - intros Hsink. destruct (Hpanic Hsink) as [-> ->].
    split; [reflexivity | split; [reflexivity |]].
    unfold cancelled. now rewrite Hsink.
Qed.

Lemma watch_stops_at_cancel_witness :
  events (@watch status_names unix_texts (sample_handle 2)
            ([TickerC gone_world (sample_handle 2)]
             ++ CancelC (set_cancelChan (Some ChClosed) (sample_handle 2))
                :: [TickerC quiet_world (sample_handle 2)]))
  = (events (@watch status_names unix_texts (sample_handle 2)
               [TickerC gone_world (sample_handle 2)])
     ++ fst (cancelled (set_cancelChan (Some ChClosed) (sample_handle 2))))%list.
Proof.
  exact (proj1 (@watch_stops_at_cancel status_names unix_texts
                  (sample_handle 2)
                  (set_cancelChan (Some ChClosed) (sample_handle 2))
                  [TickerC gone_world (sample_handle 2)]
                  [TickerC quiet_world (sample_handle 2)]
                  (conj eq_refl eq_refl) eq_refl)).
Defined.

(** ** Watchdog: zombies *)

Lemma observe_no_wait `{StatusPkg} `{ProbeTexts} w p :
  waits (snd (observe w p)) = 0%nat.
Proof.
  unfold observe. destruct (isAlive w p); cbn [negb]; [| reflexivity].
  destruct (p_UpdateStatus w (p_GetPid w)) as [pStatus [e|]];
    destruct (String.eqb (State pStatus) ""); reflexivity.
Qed.

Lemma tick_waits `{StatusPkg} `{ProbeTexts} w p st :
  delivers w p ->
  waits (out (tick w p st))
  = (if negb (String.eqb (fst (observe w p)) (last st))
        && String.eqb (fst (observe w p)) Zombie
     then 1%nat else 0%nat).
Proof.
  intros Hd. unfold tick. pose proof (observe_no_wait w p) as Ho.
  destruct (observe w p) as [current evObserve]. cbn [fst snd] in *.
  destruct (String.eqb current (last st)); cbn [negb andb out]; [exact Ho |].
  destruct (notify_cases w p current) as [[_ ->]|[Hnd _]]; [| contradiction].
  assert (Hp : forall n, waits (snd (restartPolicy p n)) = 0%nat).
  { intros n. unfold restartPolicy.
    destruct ((n >? 0)%Z || (n =? infiniteRestarts)%Z); reflexivity. }
  specialize (Hp (numRestarts st)).
  destruct (String.eqb current Terminated);
    [destruct (restartPolicy p (numRestarts st)) as [n evRestart] |];
    cbn [fst snd out] in *;
    destruct (String.eqb current Zombie);
    rewrite ?waits_app, ?Ho, ?Hp; unfold reapZombie;
    destruct (is_nil (GetNotification p)); destruct (p_Wait w);
    reflexivity.
Qed.

(** X10.  When the running loop serves a tick whose send goes through,
    it waits on the process exactly when the observed state changed and
    is [Zombie], and then once; a tick that sees the same zombie again
    does not wait.  Whether the wait fails makes no difference to the
    loop: it keeps running with the same locals, notifications and
    restarts. *)
Theorem tick_reaps_changed_zombie `{StatusPkg} `{ProbeTexts} :
  forall (p0 : Process) (ws : list Wakeup) (w : World) (p : Process),
    running (watch p0 ws) ->
    delivers w p ->
    waits (events (watch p0 (ws ++ [TickerC w p])))
    = (waits (events (watch p0 ws))
       + (if negb (String.eqb (fst (observe w p)) (last (locals (watch p0 ws))))
             && String.eqb (fst (observe w p)) Zombie
          then 1 else 0))%nat
    /\ (forall e,
           running (watch p0 (ws ++ [TickerC (with_Wait e w) p]))
           /\ locals (watch p0 (ws ++ [TickerC (with_Wait e w) p]))
              = locals (watch p0 (ws ++ [TickerC w p]))
           /\ notifications (events (watch p0 (ws ++ [TickerC (with_Wait e w) p])))
              = notifications (events (watch p0 (ws ++ [TickerC w p])))
           /\ restarts (events (watch p0 (ws ++ [TickerC (with_Wait e w) p])))
              = restarts (events (watch p0 (ws ++ [TickerC w p])))).
Proof.
  intros p0 ws w p Hrun Hd.
  destruct (watch_snoc_tick p0 ws w p Hrun) as (Hev & Hloc & Hret & Hstop).
  split.
  - rewrite Hev, waits_app, (tick_waits w p _ Hd). reflexivity.
  - intros e.
    assert (Hd' : delivers (with_Wait e w) p) by exact Hd.
    destruct (watch_snoc_tick p0 ws (with_Wait e w) p Hrun)
      as (Hev' & Hloc' & Hret' & Hstop').
    destruct (tick_delivered w p (locals (watch p0 ws)) Hd)
      as (Hs & Hst & Hn & Hr).
    destruct (tick_delivered (with_Wait e w) p (locals (watch p0 ws)) Hd')
      as (Hs' & Hst' & Hn' & Hr').
    change (observe (with_Wait e w) p) with (observe w p) in *.
    rewrite Hev, Hev', Hloc, Hloc', !notifications_app, !restarts_app.
    rewrite Hst, Hst', Hn, Hn', Hr, Hr'.
    repeat split; [exact Hret' | now rewrite Hstop'].
Qed.

Lemma tick_reaps_changed_zombie_witness :
  waits
    (events (@watch status_names unix_texts (sample_handle 2)
               ([TickerC quiet_world (sample_handle 2)]
                ++ [TickerC (world_with None None "zombie") (sample_handle 2)])))
  = (waits
       (events (@watch status_names unix_texts (sample_handle 2)
                  [TickerC quiet_world (sample_handle 2)]))
     + (if negb (String.eqb
                   (fst (@observe status_names unix_texts
                           (world_with None None "zombie") (sample_handle 2)))
                   (last (locals (@watch status_names unix_texts
                                    (sample_handle 2)
                                    [TickerC quiet_world (sample_handle 2)]))))
           && String.eqb
                (fst (@observe status_names unix_texts
                        (world_with None None "zombie") (sample_handle 2)))
                (@Zombie status_names)
        then 1 else 0))%nat.
Proof.
  exact (proj1 (@tick_reaps_changed_zombie status_names unix_texts
                  (sample_handle 2) [TickerC quiet_world (sample_handle 2)]
                  (world_with None None "zombie") (sample_handle 2)
                  (conj eq_refl eq_refl) eq_refl)).
Defined.

(** ** Watchdog: what a subscriber sees *)

Lemma cancelled_no_notification p : notifications (fst (cancelled p)) = [].
Proof. unfold cancelled. destruct (GetNotification p) as [[|]|]; reflexivity. Qed.

Lemma watch_loop_chain `{StatusPkg} `{ProbeTexts} ws :
  Forall has_sink ws ->
  forall st, chain (last st) (notifications (events (watch_loop ws st))).
Proof.
  induction 1 as [|[w p|p] rest Hsink _ IH]; intros st.
  - exact I.
  - rewrite watch_loop_tick.
    destruct (tick_effect w p st) as [(Hs & _ & Hst & Hn & _)|(why & Hs & _)].
    + rewrite Hs. cbn [events]. rewrite notifications_app, Hn.
      assert (Hl : last (next (tick w p st)) = fst (observe w p))
        by (rewrite Hst; reflexivity).
      pose proof (IH (next (tick w p st))) as IH'. rewrite Hl in IH'.
      cbn in Hsink.
      destruct (GetNotification p) as [c|]; [| congruence]. cbn [is_nil negb].
      rewrite Bool.andb_true_r.
      destruct (String.eqb_spec (fst (observe w p)) (last st)) as [E|E];
        cbn [negb List.app chain].
      * rewrite <- E. exact IH'.
      * split; [congruence | exact IH'].
    + rewrite Hs. cbn [events].
      destruct (tick_stop_next w p st why Hs) as (_ & -> & _). exact I.
  - cbn [watch_loop]. destruct (cancelChan p) as [[|]|]; try apply IH.
    destruct (snd (cancelled p)); cbn [events];
      now rewrite cancelled_no_notification.
Qed.

(** X11.  When the sink stays configured, the states sent on it over a
    whole run never repeat back to back: every notification differs from
    the one sent before it. *)
Theorem watch_notifications_never_repeat `{StatusPkg} `{ProbeTexts} :
  forall (p0 : Process) (ws : list Wakeup),
    Forall has_sink ws ->
    chain "" (notifications (events (watch p0 ws))).
Proof.
  intros p0 ws Hsink. unfold watch. cbn [events].
  change (notifications (?e :: ?l)) with (notifications l).
  apply (watch_loop_chain ws Hsink (mkLoop "" (initialRestarts p0))).
Qed.

Lemma watch_notifications_never_repeat_witness :
  chain ""
    (notifications
       (events (@watch status_names unix_texts (sample_handle 2)
                  [TickerC gone_world (sample_handle 2);
                   TickerC gone_world (sample_handle 2);
                   TickerC quiet_world (sample_handle 2)]))).
Proof.
  refine (@watch_notifications_never_repeat status_names unix_texts
            (sample_handle 2) _ _).
  repeat constructor; discriminate.
Defined.

(** X12.  When the [Terminated] and [Unavailable] constants are not the
    empty string, no observed state is empty, so the first tick of a
    watcher always counts as a change: with a sink that is open and takes
    the value it sends the state it observes. *)
Theorem watch_first_tick_notifies `{StatusPkg} `{ProbeTexts} :
  Terminated <> "" ->
  Unavailable <> "" ->
  forall (p0 : Process) (w : World) (p : Process),
    fst (observe w p) <> ""
    /\ (GetNotification p = Some ChOpen ->
        sink_ready w = true ->
        notifications (events (watch p0 [TickerC w p])) = [fst (observe w p)]).
Proof.
  intros HT HU p0 w p.
  assert (Hne : fst (observe w p) <> "").
  { unfold observe. destruct (isAlive w p); cbn [negb]; [| exact HT].
    destruct (p_UpdateStatus w (p_GetPid w)) as [pStatus err].
    destruct (String.eqb_spec (State pStatus) ""); cbn [fst]; assumption. }
  split; [exact Hne |]. intros Hsink Hready.
  assert (Hd : delivers w p) by (unfold delivers; now rewrite Hsink).
  destruct (watch_snoc_tick p0 [] w p (conj eq_refl eq_refl)) as (Hev & _).
  cbn [List.app] in Hev. rewrite Hev.
  destruct (tick_delivered w p (locals (watch p0 [])) Hd) as (_ & _ & Hn & _).
  rewrite notifications_app, Hn, Hsink. cbn [watch watch_loop events locals last].
  apply String.eqb_neq in Hne. rewrite Hne. reflexivity.
Qed.

Lemma watch_first_tick_notifies_witness :
  fst (@observe status_names unix_texts quiet_world (sample_handle 2)) <> ""
  /\ (GetNotification (sample_handle 2) = Some ChOpen ->
      sink_ready quiet_world = true ->
      notifications
        (events (@watch status_names unix_texts (sample_handle 2)
                   [TickerC quiet_world (sample_handle 2)]))
      = [fst (@observe status_names unix_texts quiet_world (sample_handle 2))]).
Proof.
  refine (@watch_first_tick_notifies status_names unix_texts _ _
            (sample_handle 2) quiet_world (sample_handle 2));
    discriminate.
Defined.

(** ** Watchdog: more on the restart budget *)

(** X13.  A watcher started on a handle that holds no reference sees it
    as terminated on the first tick (when [Terminated] is not the empty
    string) and, when the send on the sink goes through and the budget
    is positive, spawns a restart right away and uses up one unit of the
    budget. *)
Theorem watch_launches_missing_process `{StatusPkg} `{ProbeTexts} :
  Terminated <> "" ->
  forall (p0 : Process) (w : World) (p : Process),
    process p = None ->
    delivers w p ->
    0 < initialRestarts p0 <= int32_max ->
    fst (observe w p) = Terminated
    /\ running (watch p0 [TickerC w p])
    /\ restarts (events (watch p0 [TickerC w p])) = 1%nat
    /\ numRestarts (locals (watch p0 [TickerC w p])) = initialRestarts p0 - 1.
Proof.
  intros HT p0 w p Hp Hd Hn.
  assert (Hobs : fst (observe w p) = Terminated).
  { unfold observe, isAlive. rewrite Hp. reflexivity. }
  split; [exact Hobs |].
  destruct (watch_snoc_tick p0 [] w p (conj eq_refl eq_refl))
    as (Hev & Hloc & Hret & Hstop).
  cbn [List.app] in *. rewrite Hev, Hloc.
  destruct (tick_delivered w p (locals (watch p0 [])) Hd) as (Hs & Hst & _ & Hr).
  cbn [watch watch_loop events locals last numRestarts] in *.
  rewrite Hobs, String.eqb_refl in Hst, Hr.
  replace (String.eqb Terminated "") with false in Hst, Hr
    by (symmetry; apply String.eqb_neq; exact HT).
  cbn [negb andb] in Hst, Hr.
  rewrite restartPolicy_positive in Hst, Hr by exact Hn.
  split; [split; [exact Hret | now rewrite Hstop] |].
  rewrite restarts_app, Hr, Hst. split; reflexivity.
Qed.

Lemma watch_launches_missing_process_witness :
  fst (@observe status_names unix_texts quiet_world
         (set_process None (sample_handle 2))) = "terminated"
  /\ running (@watch status_names unix_texts (sample_handle 2)
                [TickerC quiet_world (set_process None (sample_handle 2))])
  /\ restarts
       (events (@watch status_names unix_texts (sample_handle 2)
                  [TickerC quiet_world (set_process None (sample_handle 2))]))
     = 1%nat
  /\ numRestarts
       (locals (@watch status_names unix_texts (sample_handle 2)
                  [TickerC quiet_world (set_process None (sample_handle 2))]))
     = initialRestarts (sample_handle 2) - 1.
Proof.
  refine (@watch_launches_missing_process status_names unix_texts _
            (sample_handle 2) quiet_world (set_process None (sample_handle 2))
            eq_refl eq_refl _).
  - discriminate.
  - unfold int32_max. cbn. lia.
Defined.

Lemma restartPolicy_never p n :
  n <= 0 -> n <> infiniteRestarts ->
  restartPolicy p n
  = (n, [EvLog Logging.DebugLevel "no more attempts to restart process %s"
               [AStr (name p)]]).
Proof.
  intros Hle Hne. unfold restartPolicy.
  replace (n >? 0)%Z with false by (rewrite Z.gtb_ltb; symmetry; apply Z.ltb_ge; lia).
  replace (n =? infiniteRestarts)%Z with false
    by (symmetry; apply Z.eqb_neq; exact Hne).
  reflexivity.
Qed.

Lemma watch_loop_never `{StatusPkg} `{ProbeTexts} ws :
  forall st,
    numRestarts st <= 0 -> numRestarts st <> infiniteRestarts ->
    restarts (events (watch_loop ws st)) = 0%nat
    /\ numRestarts (locals (watch_loop ws st)) = numRestarts st.
Proof.
  induction ws as [|[w p|p] rest IH]; intros st Hle Hne.
  - now split.
  - rewrite watch_loop_tick.
    destruct (tick_effect w p st) as [(Hs & _ & Hst & _ & Hr)|(why & Hs & _)].
    + rewrite Hs. cbn [events locals].
      rewrite (restartPolicy_never p _ Hle Hne) in Hst, Hr.
      cbn [fst snd] in Hst, Hr.
      assert (Hsame : numRestarts (next (tick w p st)) = numRestarts st).
      { rewrite Hst. cbn [numRestarts]. now destruct (_ && _). }
      destruct (IH (next (tick w p st))) as [Hr' Hn']; [lia | congruence |].
      rewrite restarts_app, Hr, Hr', Hn', Hsame. now destruct (_ && _).
    + rewrite Hs. cbn [events locals].
      destruct (tick_stop_next w p st why Hs) as (-> & _ & ->). now split.
  - cbn [watch_loop].
    destruct (cancelChan p) as [[|]|]; try (apply IH; assumption).
    destruct (snd (cancelled p)); cbn [events locals];
      now rewrite cancelled_no_restart.
Qed.

(** X14.  A configured budget that is zero or negative, other than the
    sentinel -1, means no restart at all: over any run no restart is
    spawned and the counter keeps its initial value. *)
Theorem watch_nonpositive_budget_never_restarts `{StatusPkg} `{ProbeTexts} :
  forall (p0 : Process) (ws : list Wakeup),
    initialRestarts p0 <= 0 ->
    initialRestarts p0 <> infiniteRestarts ->
    restarts (events (watch p0 ws)) = 0%nat
    /\ numRestarts (locals (watch p0 ws)) = initialRestarts p0.
Proof.
  intros p0 ws Hle Hne. unfold watch. cbn [events locals].
  change (restarts (?e :: ?l)) with (restarts l).
  apply (watch_loop_never ws (mkLoop "" (initialRestarts p0)) Hle Hne).
Qed.

Lemma watch_nonpositive_budget_never_restarts_witness :
  restarts
    (events (@watch status_names unix_texts (sample_handle (-5))
               [TickerC gone_world (sample_handle (-5));
                TickerC quiet_world (sample_handle (-5));
                TickerC gone_world (sample_handle (-5))])) = 0%nat
  /\ numRestarts
       (locals (@watch status_names unix_texts (sample_handle (-5))
                  [TickerC gone_world (sample_handle (-5));
                   TickerC quiet_world (sample_handle (-5));
                   TickerC gone_world (sample_handle (-5))]))
     = initialRestarts (sample_handle (-5)).
Proof.
  refine (@watch_nonpositive_budget_never_restarts status_names unix_texts
            (sample_handle (-5)) _ _ _).
  - cbn. lia.
  - discriminate.
Defined.

(** ** Log levels *)


(** ** Liveness prober, in full *)

(** X16.  [isAlive] answers true exactly when the handle holds a
    reference, its pid resolves, and the probe signal either succeeds or
    fails with an error that contains neither the "no such process" nor
    the "already finished" text.  In particular a pid that does not
    resolve is reported as not alive. *)
Theorem isAlive_true_iff `{ProbeTexts} :
  forall (w : World) (p : Process),
    isAlive w p = true
    <-> exists pr osProcess,
        process p = Some pr
        /\ os_FindProcess w (Pid pr) = inl osProcess
        /\ (os_Signal w osProcess 0 = None
            \/ exists e,
                os_Signal w osProcess 0 = Some e
                /\ Contains e noSuchProcess = false
                /\ Contains e alreadyFinished = false).
Proof.
  intros w p. unfold isAlive. split.
  - destruct (process p) as [pr|]; [| discriminate].
    destruct (os_FindProcess w (Pid pr)) as [osProcess|e] eqn:Hf; [| discriminate].
    destruct (os_Signal w osProcess 0) as [e|] eqn:Hs.
    + destruct (Contains e noSuchProcess) eqn:H1; [discriminate |].
      destruct (Contains e alreadyFinished) eqn:H2; [discriminate |].
      intros _. exists pr, osProcess. repeat split; try assumption.
      right. exists e. now repeat split.
    + intros _. exists pr, osProcess. repeat split; try assumption. now left.
  - intros (pr & osProcess & -> & -> & [-> | (e & -> & -> & ->)]); reflexivity.
Qed.

(** ** Watchdog and launcher together *)

(** X17.  A watcher spawns restarts only for a handle that had an option
    block when [watch] started: on a handle without one the counter
    starts at 0 and no restart goroutine, whose [startProcess] would read
    the missing option block, is ever spawned. *)
Theorem watch_restarts_need_options `{StatusPkg} `{ProbeTexts} :
  forall (p0 : Process) (ws : list Wakeup),
    (0 < restarts (events (watch p0 ws)))%nat ->
    exists o, options p0 = Some o /\ (0 < restart o \/ restart o = infiniteRestarts).
Proof.
  intros p0 ws Hpos.
  destruct (Z_lt_le_dec 0 (initialRestarts p0)) as [Hgt|Hle].
  - unfold initialRestarts in Hgt. destruct (options p0) as [o|]; [| lia].
    exists o. split; [reflexivity | now left].
  - destruct (Z.eq_dec (initialRestarts p0) infiniteRestarts) as [Hinf|Hne].
    + unfold initialRestarts in Hinf. destruct (options p0) as [o|];
        [| discriminate]. exists o. split; [reflexivity | now right].
    + pose proof (watch_loop_never ws (mkLoop "" (initialRestarts p0)) Hle Hne)
        as [Hzero _].
      unfold watch in Hpos. cbn [events] in Hpos.
      change (restarts (?e :: ?l)) with (restarts l) in Hpos. lia.
Qed.

Lemma watch_restarts_need_options_witness :
  exists o,
    options (sample_handle 2) = Some o
    /\ (0 < restart o \/ restart o = infiniteRestarts).
Proof.
  refine (@watch_restarts_need_options status_names unix_texts (sample_handle 2)
            [TickerC gone_world (sample_handle 2)] _).
  cbn. lia.
Defined.

(** ** Watchdog: a send that does not go through *)

(** X18.  On a tick that sees a change, the send on the sink comes before
    the restart policy and the reaping.  With a sink that is already
    closed the goroutine panics at the send; with an open sink whose
    receiving end takes no value it stays blocked there.  In both cases
    nothing is sent, no restart is spawned, the locals are as before, and
    no later wake-up is served. *)
Theorem watch_halts_at_send `{StatusPkg} `{ProbeTexts} :
  forall (p0 : Process) (ws ws2 : list Wakeup) (w : World) (p : Process),
    running (watch p0 ws) ->
    fst (observe w p) <> last (locals (watch p0 ws)) ->
    (GetNotification p = Some ChClosed ->
     stopped (watch p0 (ws ++ TickerC w p :: ws2))
     = Some (Panicked SendOnClosedChannel))
    /\ (GetNotification p = Some ChOpen ->
        sink_ready w = false ->
        stopped (watch p0 (ws ++ TickerC w p :: ws2)) = Some BlockedOnSend)
    /\ (~ delivers w p ->
        returned (watch p0 (ws ++ TickerC w p :: ws2)) = false
        /\ locals (watch p0 (ws ++ TickerC w p :: ws2)) = locals (watch p0 ws)
        /\ events (watch p0 (ws ++ TickerC w p :: ws2))
           = (events (watch p0 ws) ++ snd (observe w p))%list
        /\ notifications (events (watch p0 (ws ++ TickerC w p :: ws2)))
           = notifications (events (watch p0 ws))
        /\ restarts (events (watch p0 (ws ++ TickerC w p :: ws2)))
           = restarts (events (watch p0 ws))).
Proof.
  intros p0 ws ws2 w p Hrun Hne.
  assert (Hhalt : ~ delivers w p ->
                  watch_loop (TickerC w p :: ws2) (locals (watch p0 ws))
                  = mkRun (snd (observe w p)) (locals (watch p0 ws)) false
                      (match GetNotification p with
                       | Some ChClosed => Some (Panicked SendOnClosedChannel)
                       | _ => Some BlockedOnSend
                       end)).
  { intros Hnd. unfold delivers in Hnd.
    destruct (tick_halts_at_send w p (locals (watch p0 ws)) Hne) as [Hc Ho].
    cbn [watch_loop].
    destruct (GetNotification p) as [[|]|]; [| | tauto].
    - destruct (sink_ready w); [congruence |].
      rewrite (Ho eq_refl eq_refl). reflexivity.
    - rewrite (Hc eq_refl). reflexivity. }
  unfold watch in *. unfold running in Hrun.
  cbn [returned stopped events locals] in *.
  rewrite (watch_loop_app ws (TickerC w p :: ws2) _ Hrun).
  cbn [events locals returned stopped]. split; [| split].
  - intros Hg. rewrite Hhalt; [now rewrite Hg |].
    unfold delivers. now rewrite Hg.
  - intros Hg Hr. rewrite Hhalt; [now rewrite Hg |].
    unfold delivers. rewrite Hg. congruence.
  - intros Hnd. rewrite (Hhalt Hnd). cbn [events locals returned stopped].
    destruct (observe_events_quiet w p) as [Hn Hr].
    rewrite List.app_comm_cons, notifications_app, restarts_app, Hn, Hr.
    rewrite List.app_nil_r, Nat.add_0_r. repeat split.
Qed.

(** A handle that holds no reference, budget 2, sink already closed: the
    first tick panics at the send and spawns nothing. *)
Lemma watch_halts_at_send_witness :
  returned (@watch status_names unix_texts (closed_sink_handle 2)
              ([] ++ TickerC quiet_world (set_process None (closed_sink_handle 2))
                     :: [TickerC quiet_world (closed_sink_handle 2)])) = false
  /\ locals (@watch status_names unix_texts (closed_sink_handle 2)
               ([] ++ TickerC quiet_world (set_process None (closed_sink_handle 2))
                      :: [TickerC quiet_world (closed_sink_handle 2)]))
     = locals (@watch status_names unix_texts (closed_sink_handle 2) [])
  /\ events (@watch status_names unix_texts (closed_sink_handle 2)
               ([] ++ TickerC quiet_world (set_process None (closed_sink_handle 2))
                      :: [TickerC quiet_world (closed_sink_handle 2)]))
     = (events (@watch status_names unix_texts (closed_sink_handle 2) [])
        ++ snd (@observe status_names unix_texts quiet_world
                  (set_process None (closed_sink_handle 2))))%list
  /\ notifications
       (events (@watch status_names unix_texts (closed_sink_handle 2)
                  ([] ++ TickerC quiet_world
                           (set_process None (closed_sink_handle 2))
                         :: [TickerC quiet_world (closed_sink_handle 2)])))
     = notifications
         (events (@watch status_names unix_texts (closed_sink_handle 2) []))
  /\ restarts
       (events (@watch status_names unix_texts (closed_sink_handle 2)
                  ([] ++ TickerC quiet_world
                           (set_process None (closed_sink_handle 2))
                         :: [TickerC quiet_world (closed_sink_handle 2)])))
     = restarts
         (events (@watch status_names unix_texts (closed_sink_handle 2) [])).
Proof.
  refine (proj2 (proj2 (@watch_halts_at_send status_names unix_texts
                   (closed_sink_handle 2) []
                   [TickerC quiet_world (closed_sink_handle 2)]
                   quiet_world (set_process None (closed_sink_handle 2))
                   (conj eq_refl eq_refl) _)) _).
  - discriminate.
  - intros Hd. exact Hd.
Defined.
